(** * httplog: a per-request HTTP access logger

    A shallow embedding of [httplog.go] and of the logging middleware, with
    the parts of the Go standard library the package calls ([regexp],
    [bufio.Scanner], [net.SplitHostPort], [strings.Replacer],
    [strconv.Itoa]) modelled next to it.

    Go strings are byte sequences: they are modelled by [string], whose
    characters are the 256 values of [ascii]. *)

From Stdlib Require Import ZArith Ascii DecimalString DecimalZ.
From Stdlib Require String.
From stdpp Require Import base option list gmap strings.

Local Open Scope Z_scope.
Local Open Scope nat_scope.

(** ** Byte-level helpers on Go strings *)

Module gostr.

(** [s[n:]] *)
Fixpoint from (n : nat) (s : string) : string :=
  match n, s with
  | 0, _ => s
  | S n', String _ s' => from n' s'
  | S _, EmptyString => EmptyString
  end.

(** [s[:n]] *)
Fixpoint upto (n : nat) (s : string) : string :=
  match n, s with
  | 0, _ => EmptyString
  | S n', String c s' => String c (upto n' s')
  | S _, EmptyString => EmptyString
  end.

(** [s[i:j]] *)
Definition slice (i j : nat) (s : string) : string := upto (j - i) (from i s).

(** Every byte of [s] satisfies [p]. *)
Fixpoint all (p : ascii → bool) (s : string) : bool :=
  match s with
  | EmptyString => true
  | String c s' => p c && all p s'
  end.

(** [strings.IndexByte(s, c) >= 0] *)
Definition has (c : ascii) (s : string) : bool :=
  negb (all (λ d, negb (Ascii.eqb d c)) s).

(** [strings.IndexByte(s, c)], [None] standing for -1 *)
Fixpoint IndexByte (s : string) (c : ascii) : option nat :=
  match s with
  | EmptyString => None
  | String d s' => if Ascii.eqb d c then Some 0 else S <$> IndexByte s' c
  end.

(** [strings.LastIndexByte(s, c)], [None] standing for -1 *)
Fixpoint LastIndexByte (s : string) (c : ascii) : option nat :=
  match s with
  | EmptyString => None
  | String d s' =>
      match LastIndexByte s' c with
      | Some i => Some (S i)
      | None => if Ascii.eqb d c then Some 0 else None
      end
  end.

(** [len(s) > 0 && s[0] == c] *)
Definition first_is (c : ascii) (s : string) : bool :=
  match s with
  | String d _ => Ascii.eqb d c
  | EmptyString => false
  end.

(** [strings.HasPrefix(s, t)] *)
Fixpoint HasPrefix (s t : string) : bool :=
  match t, s with
  | EmptyString, _ => true
  | String d t', String c s' => Ascii.eqb c d && HasPrefix s' t'
  | String _ _, EmptyString => false
  end.

(** [p] holds of [s] or of one of its suffixes. *)
Fixpoint somewhere (p : string → bool) (s : string) : bool :=
  p s || match s with
         | String _ s' => somewhere p s'
         | EmptyString => false
         end.


(** [strings.Join(ss, EmptyString)] *)
Fixpoint cat (ss : list string) : string :=
  match ss with
  | [] => EmptyString
  | s :: ss' => s +:+ cat ss'
  end.

(** The double quote character, byte 34. *)
Definition dquote : ascii := "034"%char.
(** Line feed and carriage return. *)
Definition LF : ascii := "010"%char.
Definition CR : ascii := "013"%char.

End gostr.

(** ** Package regexp

    Go's [regexp] finds the leftmost match and, among the matches that start
    there, the one a backtracking search visits first.  The matcher below is
    that backtracking search, for the fragment of the syntax the three
    patterns of [SetRequestInfo] use: single characters and character
    classes, their greedy repetition [+], concatenation and capturing
    groups.  None of the three patterns has a literal above byte 127, so
    matching bytes and matching runes give the same submatch boundaries. *)

Module regexp.

Inductive class : Type :=
| AnyCharNotNL                (* .   *)
| PerlSpace                   (* \s  = [\t\n\f\r ] *)
| Lit (c : ascii).            (* a literal character *)

Definition class_has (k : class) (c : ascii) : bool :=
  match k with
  | AnyCharNotNL => negb (Ascii.eqb c gostr.LF)
  | PerlSpace =>
      Ascii.eqb c "009" || Ascii.eqb c "010" || Ascii.eqb c "012"
      || Ascii.eqb c "013" || Ascii.eqb c " "
  | Lit d => Ascii.eqb c d
  end%char.

Inductive Regexp : Type :=
| Empty                             (* the empty pattern *)
| One (k : class)                   (* one character of the class *)
| Plus (k : class)                  (* k+, greedy *)
| Cat (r1 r2 : Regexp)              (* r1 r2 *)
| Capture (n : nat) (r : Regexp).   (* ( r ), the n-th group *)

(** Number of capturing groups. *)
Fixpoint NumSubexp (r : Regexp) : nat :=
  match r with
  | Empty | One _ | Plus _ => 0
  | Cat r1 r2 => NumSubexp r1 + NumSubexp r2
  | Capture _ r1 => S (NumSubexp r1)
  end.

(** The text consumed between input [s] and its suffix [s']. *)
Definition consumed (s s' : string) : string :=
  gostr.upto (String.length s - String.length s') s.

(** Captured groups, most recent first. *)
Definition captures : Type := list (nat * string).

Fixpoint group (n : nat) (caps : captures) : string :=
  match caps with
  | [] => EmptyString
  | (m, t) :: caps' => if Nat.eqb m n then t else group n caps'
  end.

(** A thread of the search: the input that is left and the groups so far. *)
Definition cont : Type := string → captures → option (string * captures).

(** [k*] greedy: as many characters as possible, giving one back at a time
    while the rest of the pattern fails. *)
Fixpoint star (k : class) (s : string) (caps : captures) (rest : cont)
  : option (string * captures) :=
  match s with
  | String c s' =>
      if class_has k c then
        match star k s' caps rest with
        | Some res => Some res
        | None => rest s caps
        end
      else rest s caps
  | EmptyString => rest s caps
  end.

Fixpoint run (r : Regexp) (s : string) (caps : captures) (rest : cont)
  : option (string * captures) :=
  match r with
  | Empty => rest s caps
  | One k =>
      match s with
      | String c s' => if class_has k c then rest s' caps else None
      | EmptyString => None
      end
  | Plus k =>
      match s with
      | String c s' => if class_has k c then star k s' caps rest else None
      | EmptyString => None
      end
  | Cat r1 r2 => run r1 s caps (λ s' caps', run r2 s' caps' rest)
  | Capture n r1 =>
      run r1 s caps (λ s' caps', rest s' ((n, consumed s s') :: caps'))
  end.

(** A match anchored at the start of [s]. *)
Definition matchAt (r : Regexp) (s : string) : option (string * captures) :=
  run r s [] (λ s' caps, Some (s', caps)).

(** [re.FindStringSubmatch(s)]: the text of the leftmost match followed by
    the text of each group; the empty list stands for the nil slice. *)
Fixpoint FindStringSubmatch (r : Regexp) (s : string) : list string :=
  match matchAt r s with
  | Some (s', caps) =>
      consumed s s' :: map (λ n, group n caps) (seq 1 (NumSubexp r))
  | None =>
      match s with
      | String _ s' => FindStringSubmatch r s'
      | EmptyString => []
      end
  end.

(** The first character of [s] is in the class. *)
Definition first_in (k : class) (s : string) : bool :=
  match s with
  | String c _ => class_has k c
  | EmptyString => false
  end.

(** No character of [s] is white space; no character of [s] is a line feed. *)
Definition spaceless (s : string) : bool :=
  gostr.all (λ c, negb (class_has PerlSpace c)) s.
Definition oneline (s : string) : bool :=
  gostr.all (class_has AnyCharNotNL) s.

(** The thread [rest] fails on [s] and on every suffix of [s]. *)
Fixpoint dead (rest : cont) (caps : captures) (s : string) : Prop :=
  rest s caps = None ∧
  match s with
  | String _ s' => dead rest caps s'
  | EmptyString => True
  end.

(** The literal text [t] as a pattern. *)
Fixpoint text (t : string) : Regexp :=
  match t with
  | EmptyString => Empty
  | String c t' => Cat (One (Lit c)) (text t')
  end.

End regexp.

(** ** Package bufio: a Scanner with the default split function ScanLines *)

Module bufio.

(** [bufio.MaxScanTokenSize] *)
Definition MaxScanTokenSize : Z := 65536.

(** The pieces of [s] between line feeds; the last piece is the text after
    the last line feed (empty when [s] ends in one). *)
Fixpoint pieces (s : string) : list string :=
  match s with
  | EmptyString => [EmptyString]
  | String c s' =>
      match pieces s' with
      | p :: ps => if Ascii.eqb c gostr.LF then EmptyString :: p :: ps
                   else String c p :: ps
      | [] => []
      end
  end.

(** [dropCR]: one trailing carriage return is removed. *)
Fixpoint dropCR (s : string) : string :=
  match s with
  | EmptyString => EmptyString
  | String c EmptyString => if Ascii.eqb c gostr.CR then EmptyString else s
  | String c s' => String c (dropCR s')
  end.

(** A piece and the byte that ends it fit the scanner's buffer. *)
Definition fits (p : string) : bool :=
  (Z.of_nat (String.length p) <? MaxScanTokenSize)%Z.

(** The tokens [Scan] delivers for the pieces of the input.  A piece that,
    with what ends it, does not fit the buffer stops the scan
    ([ErrTooLong]); the empty piece after a final line feed is no token. *)
Fixpoint tokens (ps : list string) : list string :=
  match ps with
  | [] => []
  | [p] =>
      if String.length p =? 0 then []
      else if fits p then [dropCR p] else []
  | p :: ps' =>
      if fits p then dropCR p :: tokens ps'
      else []
  end.

(** The lines [s.Text()] takes in the loop [for s.Scan()] over
    [bufio.NewScanner(strings.NewReader(text))]. *)
Definition ScanLines (text : string) : list string := tokens (pieces text).

End bufio.

(** ** Package net *)

Module net.

(** [net.SplitHostPort]: host and port of [host:port], [[host]:port];
    [None] stands for a non-nil error. *)
Definition SplitHostPort (hostport : string) : option (string * string) :=
  (* The port starts after the last colon. *)
  match gostr.LastIndexByte hostport ":" with
  | None => None                                  (* missing port *)
  | Some i =>
      if gostr.first_is "[" hostport then
        (* Expect the first ']' just before the last ':'. *)
        match gostr.IndexByte hostport "]" with
        | None => None                            (* missing ']' *)
        | Some e =>
            if e + 1 =? String.length hostport then None
            else if e + 1 =? i then
              let host := gostr.slice 1 e hostport in
              if gostr.has "[" (gostr.from 1 hostport) then None
              else if gostr.has "]" (gostr.from (e + 1) hostport) then None
              else Some (host, gostr.from (i + 1) hostport)
            else None                             (* too many colons, or none after ']' *)
        end
      else
        let host := gostr.upto i hostport in
        if gostr.has ":" host then None           (* too many colons *)
        else if gostr.has "[" hostport then None
        else if gostr.has "]" hostport then None
        else Some (host, gostr.from (i + 1) hostport)
  end.

End net.

(** ** Package strings: a Replacer whose old strings are single bytes *)

Module strings.

Fixpoint lookup_byte (c : ascii) (oldnew : list (ascii * string))
  : option string :=
  match oldnew with
  | [] => None
  | (old, new) :: rest => if Ascii.eqb c old then Some new else lookup_byte c rest
  end.

(** [strings.NewReplacer(old1, new1, ...).Replace(s)] *)
Fixpoint Replace (oldnew : list (ascii * string)) (s : string) : string :=
  match s with
  | EmptyString => EmptyString
  | String c s' =>
      match lookup_byte c oldnew with
      | Some new => new +:+ Replace oldnew s'
      | None => String c (Replace oldnew s')
      end
  end.

End strings.

(** ** Packages strconv and fmt *)

Module strconv.

(** [strconv.Itoa]: the decimal form, with a minus sign for negatives. *)
Definition Itoa (i : Z) : string := NilEmpty.string_of_int (Z.to_int i).

End strconv.

Module fmt.

(** The values handed to [Add] as [interface{}]: integers, strings,
    booleans, nil, and any other value, kept as the text the verb [%v]
    prints for it. *)
Inductive value : Type :=
| Int (i : Z)
| Str (s : string)
| Bool (b : bool)
| Nil
| Other (printed : string).

(** [fmt.Sprintf("%v", v)] *)
Definition Sprintf_v (v : value) : string :=
  match v with
  | Int i => strconv.Itoa i
  | Str s => s
  | Bool true => "true"
  | Bool false => "false"
  | Nil => "<nil>"
  | Other printed => printed
  end.

End fmt.

(** ** Package net/http: what the logger reads of a request *)

Module http.

Record Request : Type := mkRequest {
  (** the header map, its keys in canonical form *)
  Header : gmap string (list string);
  (** the peer address as the server recorded it *)
  RemoteAddr : string;
  (** what [httputil.DumpRequest(r, true)] returns for the request: its
      wire form (request line, headers, blank line, body), or [None] for
      an error *)
  wire : option string
}.

(** [h.Get(key)]: the first value of the key, or the empty string. *)
Definition Header_Get (h : gmap string (list string)) (key : string) : string :=
  match h !! key with
  | Some (v :: _) => v
  | _ => EmptyString
  end.

(** The calls a handler makes on its [http.ResponseWriter]. *)
Inductive call : Type :=
| WriteHeader (status : Z)
| Write (p : string).

End http.

Module httputil.

Definition DumpRequest (r : http.Request) : option string := http.wire r.

End httputil.

(** ** Package httplog: the logger *)

Module httplog.

Import gostr.

(** An [io.Writer] is known by its identity; what it has been asked to write
    is kept in the trace of [Write] calls. *)
Definition Writer : Type := nat.
Definition trace : Type := list (Writer * string).

(** Concrete implementation of the Logger interface. *)
Record httpLogger : Type := mkLogger {
  w : Writer;
  ip : string;
  method : string;
  path : string;
  ua : string;
  params : string;
  status : Z;
  reqRaw : string;
  extras : gmap string fmt.value
}.

(** Assignments to one field. *)
Definition set_ip (l : httpLogger) (v : string) : httpLogger :=
  mkLogger (w l) v (method l) (path l) (ua l) (params l) (status l) (reqRaw l) (extras l).
Definition set_method (l : httpLogger) (v : string) : httpLogger :=
  mkLogger (w l) (ip l) v (path l) (ua l) (params l) (status l) (reqRaw l) (extras l).
Definition set_path (l : httpLogger) (v : string) : httpLogger :=
  mkLogger (w l) (ip l) (method l) v (ua l) (params l) (status l) (reqRaw l) (extras l).
Definition set_ua (l : httpLogger) (v : string) : httpLogger :=
  mkLogger (w l) (ip l) (method l) (path l) v (params l) (status l) (reqRaw l) (extras l).
Definition set_params (l : httpLogger) (v : string) : httpLogger :=
  mkLogger (w l) (ip l) (method l) (path l) (ua l) v (status l) (reqRaw l) (extras l).
Definition set_status (l : httpLogger) (v : Z) : httpLogger :=
  mkLogger (w l) (ip l) (method l) (path l) (ua l) (params l) v (reqRaw l) (extras l).
Definition set_reqRaw (l : httpLogger) (v : string) : httpLogger :=
  mkLogger (w l) (ip l) (method l) (path l) (ua l) (params l) (status l) v (extras l).
Definition set_extras (l : httpLogger) (v : gmap string fmt.value) : httpLogger :=
  mkLogger (w l) (ip l) (method l) (path l) (ua l) (params l) (status l) (reqRaw l) v.

(** [New] returns a Logger configured with the supplied writer; every other
    field has its zero value and the map is allocated, empty. *)
Definition New (w : Writer) : httpLogger :=
  mkLogger w EmptyString EmptyString EmptyString EmptyString EmptyString
           0%Z EmptyString ∅.

(** [l.extras[key] = value] *)
Definition Add (l : httpLogger) (key : string) (value : fmt.value) : httpLogger :=
  set_extras l (<[key := value]> (extras l)).

(** [l.status = s] *)
Definition SetStatus (l : httpLogger) (s : Z) : httpLogger :=
  set_status l s.

(** Poor man's JSON encoding: the replacer is
    [strings.NewReplacer(=, quote colon space quote, &, quote comma space quote)]. *)
Definition jsonPairs : list (ascii * string) :=
  [ ("="%char, String dquote (":" +:+ " " +:+ String dquote EmptyString));
    ("&"%char, String dquote ("," +:+ " " +:+ String dquote EmptyString)) ].

Definition toJSON (s : string) : string :=
  ("{" +:+ String dquote EmptyString) +:+ strings.Replace jsonPairs s
    +:+ (String dquote EmptyString +:+ "}").

(** [(.+)\s(.+)\sHTTP] *)
Definition pathRegexp : regexp.Regexp :=
  regexp.Cat (regexp.Capture 1 (regexp.Plus regexp.AnyCharNotNL))
    (regexp.Cat (regexp.One regexp.PerlSpace)
       (regexp.Cat (regexp.Capture 2 (regexp.Plus regexp.AnyCharNotNL))
          (regexp.Cat (regexp.One regexp.PerlSpace) (regexp.text "HTTP")))).

(** What the end of [pathRegexp] looks for: a white space character
    followed by [HTTP], at the start of [s]. *)
Definition spaceHTTP (s : string) : bool :=
  match s with
  | String c s' => regexp.class_has regexp.PerlSpace c && HasPrefix s' "HTTP"
  | EmptyString => false
  end.

(** [User-Agent:\s(.+)] *)
Definition userAgentRegexp : regexp.Regexp :=
  regexp.Cat (regexp.text "User-Agent:")
    (regexp.Cat (regexp.One regexp.PerlSpace)
       (regexp.Capture 1 (regexp.Plus regexp.AnyCharNotNL))).

(** [(.+)\?(.+)] *)
Definition getParamsRegexp : regexp.Regexp :=
  regexp.Cat (regexp.Capture 1 (regexp.Plus regexp.AnyCharNotNL))
    (regexp.Cat (regexp.One (regexp.Lit "?"))
       (regexp.Capture 2 (regexp.Plus regexp.AnyCharNotNL))).

Definition setPath (l : httpLogger) (path : string)
    (pathRegexp getParamsRegexp : regexp.Regexp) : httpLogger :=
  (* Check for the request path portion *)
  let matches := regexp.FindStringSubmatch pathRegexp path in
  if 0 <? length matches then
    let l := set_method l (matches !!! 1) in
    let l := set_path l (matches !!! 2) in
    (* Check for query string params (GET request) *)
    let matches := regexp.FindStringSubmatch getParamsRegexp (matches !!! 2) in
    if 0 <? length matches then
      let l := set_path l (matches !!! 1) in
      set_params l (toJSON (matches !!! 2))
    else l
  else l.

Definition setUa (l : httpLogger) (h : string) (r : regexp.Regexp) : httpLogger :=
  (* Check for user agent header *)
  let matches := regexp.FindStringSubmatch r h in
  if 0 <? length matches then set_ua l (matches !!! 1) else l.

Definition getIP (r : http.Request) : string :=
  let forwarded := http.Header_Get (http.Header r) "X-Forwarded-For" in
  if 0 <? String.length forwarded then forwarded
  else
    match net.SplitHostPort (http.RemoteAddr r) with
    | Some (ip, _) => ip
    | None => http.RemoteAddr r
    end.

Definition reqDump (r : http.Request) : string :=
  match httputil.DumpRequest r with
  | Some dump => dump
  | None => EmptyString
  end.

(** The body of the loop [for s.Scan()]: the logger and the variable [line]. *)
Definition scanStep (st : httpLogger * string) (text : string)
  : httpLogger * string :=
  let line := text in
  let l := setPath (fst st) line pathRegexp getParamsRegexp in
  let l := setUa l line userAgentRegexp in
  (l, line).

Definition SetRequestInfo (l : httpLogger) (r : http.Request) : httpLogger :=
  let l := set_ip l (getIP r) in
  (* Get a request dump *)
  let l := set_reqRaw l (reqDump r) in
  (* The raw request comes in lines, separated by \r\n *)
  let st := foldl scanStep (l, EmptyString) (bufio.ScanLines (reqRaw l)) in
  let l := fst st in
  let line := snd st in
  (* Last line contains the request parameters *)
  if String.length (params l) =? 0 then set_params l line else l.

(** What one iteration of [for k, v := range l.extras] appends. *)
Definition extraEntry (kv : string * fmt.value) : string :=
  " " +:+ fst kv +:+ "=" +:+ fmt.Sprintf_v (snd kv).

(** [now] is [time.Now().UTC().Format(...)] as read by the call, [order]
    the order in which [range] goes through the entries of the map. *)
Definition buildLogEntry (l : httpLogger) (now : string)
    (order : list (string * fmt.value)) : string :=
  let buf := EmptyString in
  let buf := buf +:+ "level=I" in
  let buf := buf +:+ (" time=" +:+ now) in
  let buf := buf +:+ (" ip=" +:+ ip l) in
  let buf := buf +:+ (" method=" +:+ method l) in
  let buf := buf +:+ (" path=" +:+ path l) in
  let buf := buf +:+ (" ua=" +:+ ua l) in
  let buf := buf +:+ (" status=" +:+ strconv.Itoa (status l)) in
  let buf := buf +:+ (" params=" +:+ params l) in
  foldl (λ buf kv, buf +:+ extraEntry kv) buf order.

(** [l.w.Write(append(l.buildLogEntry(), '\n'))] *)
Definition Log (l : httpLogger) (now : string)
    (order : list (string * fmt.value)) (tr : trace) : httpLogger * trace :=
  (l, tr ++ [(w l, buildLogEntry l now order +:+ String LF EmptyString)]).

(** Go leaves the order of a [range] over a map unspecified, and it may
    change from one loop to the next: every arrangement of the entries is a
    possible run. *)
Definition rangeOrder (m : gmap string fmt.value)
    (order : list (string * fmt.value)) : Prop :=
  order ≡ₚ map_to_list m.

(** The runs of [Log]: the clock reading and the order of the range are
    the environment's choice. *)
Inductive LogStep : httpLogger → trace → httpLogger → trace → Prop :=
| LogStep_run (l : httpLogger) (tr : trace) (now : string)
    (order : list (string * fmt.value)) :
    rangeOrder (extras l) order →
    LogStep l tr (fst (Log l now order tr)) (snd (Log l now order tr)).

End httplog.

(** ** Function bodies with deferred calls

    A Go function body runs its statements in order.  [defer f()] only
    registers [f]; the registered calls run, last registered first, when the
    function returns or when a panic unwinds through it.  A panic in a
    statement skips the statements after it, [defer] statements included. *)

Module gofunc.

Inductive outcome : Type := Returns | Panics.

Inductive stmt (S : Type) : Type :=
| Call (f : S → S * outcome)     (* a statement; it may panic *)
| Defer (f : S → S).             (* defer f() *)
Arguments Call {S} f.
Arguments Defer {S} f.

(** Running the deferred calls, the most recent first. *)
Fixpoint unwind {S : Type} (deferred : list (S → S)) (st : S) : S :=
  match deferred with
  | [] => st
  | f :: fs => unwind fs (f st)
  end.

Fixpoint exec {S : Type} (body : list (stmt S)) (deferred : list (S → S))
    (st : S) : S * outcome :=
  match body with
  | [] => (unwind deferred st, Returns)
  | Call f :: body' =>
      match f st with
      | (st', Returns) => exec body' deferred st'
      | (st', Panics) => (unwind deferred st', Panics)
      end
  | Defer f :: body' => exec body' (f :: deferred) st
  end.

End gofunc.

(** ** Package httplog: the middleware *)

Module middleware.

Import httplog gofunc.

(** The wrapper around the server's response writer.  The embedded
    [http.ResponseWriter] is kept as the calls it has received. *)
Record loggingResponseWriter : Type := mkLrw {
  ResponseWriter : list http.call;
  Status : Z
}.

Definition lrw_WriteHeader (lrw : loggingResponseWriter) (status : Z)
  : loggingResponseWriter :=
  let lrw := mkLrw (ResponseWriter lrw) status in
  mkLrw (ResponseWriter lrw ++ [http.WriteHeader status]) (Status lrw).

(** [Write] is not overridden: the call goes to the embedded writer. *)
Definition lrw_Write (lrw : loggingResponseWriter) (p : string)
  : loggingResponseWriter :=
  mkLrw (ResponseWriter lrw ++ [http.Write p]) (Status lrw).

Definition lrw_call (lrw : loggingResponseWriter) (c : http.call)
  : loggingResponseWriter :=
  match c with
  | http.WriteHeader status => lrw_WriteHeader lrw status
  | http.Write p => lrw_Write lrw p
  end.

(** An [http.Handler], as far as the middleware can see it: the calls it
    makes on the response writer it is given, and whether it then returns
    or panics. *)
Definition Handler : Type := http.Request → list http.call * outcome.

(** [next.ServeHTTP(lrw, r)] *)
Definition serve (next : Handler) (lrw : loggingResponseWriter)
    (r : http.Request) : loggingResponseWriter * outcome :=
  (foldl lrw_call lrw (fst (next r)), snd (next r)).

Record loggingHandler : Type := mkHandler {
  next : Handler
}.

Definition WithLogging (next : Handler) : loggingHandler := mkHandler next.

(** What a call of [ServeHTTP] works on: the logger [h.logger] points to,
    the writes made so far, the server's response writer [w] and the local
    variable [lrw]. *)
Record state : Type := mkState {
  logger : httpLogger;
  sink : trace;
  response : list http.call;
  lrw : loggingResponseWriter
}.

(** The statements of [loggingHandler.ServeHTTP]. *)
Definition ServeHTTP_body (h : loggingHandler) (r : http.Request)
    (now : string) (order : list (string * fmt.value)) : list (stmt state) :=
  [ (* h.logger.SetRequestInfo(r) *)
    Call (λ st, (mkState (SetRequestInfo (logger st) r) (sink st)
                         (response st) (lrw st), Returns));
    (* lrw := &loggingResponseWriter{ResponseWriter: w} *)
    Call (λ st, (mkState (logger st) (sink st) (response st)
                         (mkLrw (response st) 0%Z), Returns));
    (* h.next.ServeHTTP(lrw, r) *)
    Call (λ st, let res := serve (next h) (lrw st) r in
                (mkState (logger st) (sink st) (ResponseWriter (fst res))
                         (fst res), snd res));
    (* h.logger.SetStatus(lrw.Status) *)
    Call (λ st, (mkState (SetStatus (logger st) (Status (lrw st))) (sink st)
                         (response st) (lrw st), Returns));
    (* defer h.logger.Log() *)
    Defer (λ st, let res := Log (logger st) now order (sink st) in
                 mkState (fst res) (snd res) (response st) (lrw st)) ].

Definition ServeHTTP (h : loggingHandler) (r : http.Request)
    (now : string) (order : list (string * fmt.value)) (st : state)
  : state * outcome :=
  exec (ServeHTTP_body h r now order) [] st.

(** The state a request finds: a logger, the writes made so far and a
    response writer that has received nothing. *)
Definition enter (l : httpLogger) (tr : trace) : state :=
  mkState l tr [] (mkLrw [] 0%Z).

(** The arguments of the [WriteHeader] calls among [cs]. *)
Definition statuses (cs : list http.call) : list Z :=
  omap (λ c, match c with http.WriteHeader s => Some s | http.Write _ => None end) cs.

End middleware.

(** ** Sample data: loggers, requests and handlers used as instances *)

Module samples.

Import gostr httplog.

(** A logger after one request, with two extra parameters. *)
Definition sample : httpLogger :=
  Add (Add (SetStatus (mkLogger 7 "193.92.20.19" "GET" "/logs" "Mozilla/5.0"
                                "{}" 0%Z EmptyString ∅) 200%Z)
           "uid" (fmt.Int 1234%Z))
      "meta" (fmt.Str "new-request").

Definition uid_first : list (string * fmt.value) :=
  [("uid", fmt.Int 1234%Z); ("meta", fmt.Str "new-request")].
Definition meta_first : list (string * fmt.value) :=
  [("meta", fmt.Str "new-request"); ("uid", fmt.Int 1234%Z)].

(** The end of a line on the wire, and a text between double quotes. *)
Definition crlf : string := String CR (String LF EmptyString).
Definition quoted (s : string) : string :=
  String dquote (s +:+ String dquote EmptyString).

(** GET / with the header lines [extra], as it is dumped. *)
Definition get_root (extra : string) : option string :=
  Some ("GET / HTTP/1.1" +:+ crlf +:+ "Host: example.com" +:+ crlf
        +:+ extra +:+ crlf).

(** A request whose forwarding header is present and empty. *)
Definition empty_forwarded : http.Request :=
  http.mkRequest {[ "X-Forwarded-For" := [EmptyString] ]} "10.0.0.1:4711"
                 (get_root ("X-Forwarded-For: " +:+ crlf)).

(** A request from an IPv6 peer. *)
Definition ipv6_peer : http.Request :=
  http.mkRequest ∅ "[::1]:4711" (get_root EmptyString).

(** A request that came through two proxies. *)
Definition forwarded : http.Request :=
  http.mkRequest {[ "X-Forwarded-For" := ["127.0.0.1, 10.1.1.1"] ]}
                 "192.0.2.1:1234"
                 (get_root ("X-Forwarded-For: 127.0.0.1, 10.1.1.1" +:+ crlf)).

(** A request from an IPv4 peer, and one whose peer address has no port. *)
Definition ipv4_peer : http.Request :=
  http.mkRequest ∅ "192.0.2.1:1234" (get_root EmptyString).
Definition portless_peer : http.Request :=
  http.mkRequest ∅ "192.0.2.1" (get_root EmptyString).

(** GET /logs?q=works, as in the README. *)
Definition get_query : http.Request :=
  http.mkRequest ∅ "193.92.20.19:51234"
    (Some ("GET /logs?q=works HTTP/1.1" +:+ crlf
           +:+ "Host: server.url:8080" +:+ crlf
           +:+ "User-Agent: curl/8.0" +:+ crlf
           +:+ "Accept: */*" +:+ crlf +:+ crlf)).

(** A form posted by a client that sends no User-Agent header. *)
Definition post_form : http.Request :=
  http.mkRequest ∅ "193.92.20.19:51235"
    (Some ("POST /signup HTTP/1.1" +:+ crlf
           +:+ "Host: server.url:8080" +:+ crlf
           +:+ "Content-Type: application/x-www-form-urlencoded" +:+ crlf
           +:+ "Content-Length: 16" +:+ crlf +:+ crlf
           +:+ "name=alice&age=7")).



(** The two requests of TestSetRequestInfo, as [httptest.NewRequest] makes
    them and [DumpRequest] writes them. *)
Definition test_post : http.Request :=
  http.mkRequest {[ "User-Agent" := ["request-ua"] ]} "192.0.2.1:1234"
    (Some ("POST https://example.com/resources HTTP/1.1" +:+ crlf
           +:+ "Host: example.com" +:+ crlf
           +:+ "User-Agent: request-ua" +:+ crlf +:+ crlf
           +:+ "{" +:+ quoted "foo" +:+ ": " +:+ quoted "bar" +:+ "}")).
Definition test_get : http.Request :=
  http.mkRequest {[ "User-Agent" := ["request-ua"];
                    "X-Forwarded-For" := ["127.0.0.1"] ]} "192.0.2.1:1234"
    (Some ("GET https://example.com/resources?foo=bar HTTP/1.1" +:+ crlf
           +:+ "Host: example.com" +:+ crlf
           +:+ "User-Agent: request-ua" +:+ crlf
           +:+ "X-Forwarded-For: 127.0.0.1" +:+ crlf +:+ crlf)).

(** The request of TestWithLogging as the test server receives it. *)
Definition test_server_get : http.Request :=
  http.mkRequest {[ "Accept-Encoding" := ["gzip"];
                    "User-Agent" := ["Go-http-client/1.1"] ]} "127.0.0.1:40000"
    (Some ("GET /?foo=bar HTTP/1.1" +:+ crlf
           +:+ "Host: 127.0.0.1:39999" +:+ crlf
           +:+ "Accept-Encoding: gzip" +:+ crlf
           +:+ "User-Agent: Go-http-client/1.1" +:+ crlf +:+ crlf)).

Definition panicking_handler : middleware.Handler :=
  λ _, ([http.WriteHeader 200%Z; http.Write "{"], gofunc.Panics).
Definition ok_handler : middleware.Handler :=
  λ _, ([http.WriteHeader 200%Z; http.Write "{}"], gofunc.Returns).

End samples.

(** ** Shapes of strings and loggers that the properties speak of *)

Module shape.

Import httplog.

(** [s] has no line feed in it. *)
Definition noLF (s : string) : bool := negb (gostr.has gostr.LF s).

(** The five fields [SetRequestInfo] writes have no line feed in them. *)
Definition cleanFields (l : httpLogger) : bool :=
  noLF (ip l) && noLF (method l) && noLF (path l) && noLF (ua l)
  && noLF (params l).

(** The keys of the extras and what [%v] prints for their values have no
    line feed in them. *)
Definition cleanExtras (order : list (string * fmt.value)) : bool :=
  forallb (λ kv, noLF (fst kv) && noLF (fmt.Sprintf_v (snd kv))) order.

(** [strings.Repeat] of one byte. *)
Fixpoint Repeat (c : ascii) (n : nat) : string :=
  match n with
  | 0 => EmptyString
  | S n' => String c (Repeat c n')
  end.

(** [strings.Join(ss, sep)] *)
Fixpoint Join (ss : list string) (sep : string) : string :=
  match ss with
  | [] => EmptyString
  | [s] => s
  | s :: ss' => s +:+ sep +:+ Join ss' sep
  end.

(** A request that cannot be dumped, and one whose dump starts with a line
    of [bufio.MaxScanTokenSize] bytes. *)
Definition no_dump : http.Request :=
  http.mkRequest ∅ "10.0.0.1:4711" None.
Definition long_target : string :=
  "GET /" +:+ Repeat "a" (Z.to_nat bufio.MaxScanTokenSize).
Definition long_request : http.Request :=
  http.mkRequest ∅ "10.0.0.1:4711"
    (Some (long_target +:+ (" HTTP/1.1" +:+ samples.crlf
                            +:+ "Host: example.com" +:+ samples.crlf
                            +:+ samples.crlf))).

End shape.

(** ** The wording of the claims that the code is compared with *)

Module worded.

(** The ip as C4 words it: the raw value of the forwarding header when the
    request carries one; otherwise the peer address with everything from
    its last colon on removed, or the whole peer address when it has no
    port to split off. *)
Definition ip (r : http.Request) : string :=
  match http.Header r !! "X-Forwarded-For" with
  | Some vs => hd EmptyString vs
  | None =>
      match net.SplitHostPort (http.RemoteAddr r),
            gostr.LastIndexByte (http.RemoteAddr r) ":" with
      | Some _, Some i => gostr.upto i (http.RemoteAddr r)
      | _, _ => http.RemoteAddr r
      end
  end.

(** The transform as C2 words it: every [=] becomes the three characters
    quote, colon, space; every [&] becomes quote, comma, space, quote; the
    result goes between the two characters brace, quote and the two
    characters quote, brace. *)
Definition toJSON (s : string) : string :=
  ("{" +:+ String gostr.dquote EmptyString)
  +:+ strings.Replace
        [ ("="%char, String gostr.dquote (":" +:+ " "));
          ("&"%char, String gostr.dquote ("," +:+ " " +:+ String gostr.dquote EmptyString)) ]
        s
  +:+ (String gostr.dquote EmptyString +:+ "}").

End worded.

(** * Properties *)

(** ** Strings *)

Module gostr_facts.

Import gostr.

Lemma str_app_cons (c : ascii) (s t : string) :
  String c s +:+ t = String c (s +:+ t).
Proof. reflexivity. Qed.

Lemma str_app_nil_l (t : string) : EmptyString +:+ t = t.
Proof. reflexivity. Qed.

Lemma str_app_nil_r (s : string) : s +:+ EmptyString = s.
Proof.
  induction s as [|c s IH]; [reflexivity|].
  by rewrite str_app_cons, IH.
Qed.

Lemma str_app_assoc (s t u : string) : (s +:+ t) +:+ u = s +:+ (t +:+ u).
Proof.
  induction s as [|c s IH]; [reflexivity|].
  by rewrite !str_app_cons, IH.
Qed.

Lemma str_length_app (s t : string) :
  String.length (s +:+ t) = String.length s + String.length t.
Proof.
  induction s as [|c s IH]; [reflexivity|].
  rewrite str_app_cons. simpl. by rewrite IH.
Qed.

Lemma all_app (p : ascii → bool) (s t : string) :
  all p (s +:+ t) = all p s && all p t.
Proof.
  induction s as [|c s IH]; [reflexivity|].
  rewrite str_app_cons. simpl. rewrite IH. by rewrite andb_assoc.
Qed.

Lemma has_app (c : ascii) (s t : string) :
  has c (s +:+ t) = has c s || has c t.
Proof. unfold has. rewrite all_app. by rewrite negb_andb. Qed.

Lemma has_cons (c d : ascii) (s : string) :
  has c (String d s) = Ascii.eqb d c || has c s.
Proof. unfold has. simpl. by rewrite negb_andb, negb_involutive. Qed.

Lemma upto_app (s t : string) : upto (String.length s) (s +:+ t) = s.
Proof.
  induction s as [|c s IH]; [by destruct t|].
  rewrite str_app_cons. simpl. by rewrite IH.
Qed.

Lemma from_app (s t : string) : from (String.length s) (s +:+ t) = t.
Proof. induction s as [|c s IH]; [reflexivity|]. by rewrite str_app_cons. Qed.

(** Folding appends from the left is appending the concatenation. *)
Lemma foldl_app {A : Type} (f : A → string) (xs : list A) (buf : string) :
  foldl (λ b x, b +:+ f x) buf xs = buf +:+ cat (map f xs).
Proof.
  revert buf. induction xs as [|x xs IH]; intros buf; simpl.
  - by rewrite str_app_nil_r.
  - by rewrite IH, str_app_assoc.
Qed.

End gostr_facts.

(** ** The decimal form of a status *)

Module strconv_facts.

(** Reading the digits [Itoa] wrote gives the number back. *)
Lemma Itoa_decimal (i : Z) :
  Z.of_int <$> NilEmpty.int_of_string (strconv.Itoa i) = Some i.
Proof.
  unfold strconv.Itoa. rewrite NilEmpty.isi. simpl.
  by rewrite DecimalZ.of_to.
Qed.

End strconv_facts.

(** ** Package regexp: what the greedy search finds *)

Module regexp_facts.

Import gostr gostr_facts regexp.

Lemma star_dead (k : class) (s : string) (caps : captures) (rest : cont) :
  dead rest caps s → star k s caps rest = None.
Proof.
  induction s as [|c s IH]; simpl; intros [H0 H]; [done|].
  destruct (class_has k c); [|done]. by rewrite (IH H).
Qed.

Lemma plus_dead (k : class) (s : string) (caps : captures) (rest : cont) :
  match s with String _ s' => dead rest caps s' | EmptyString => True end →
  run (Plus k) s caps rest = None.
Proof.
  destruct s as [|c s]; simpl; [done|]. intros H.
  destruct (class_has k c); [|done]. by apply star_dead.
Qed.

(** Greedy repetition stops where the rest of the pattern first succeeds,
    coming from the longest repetition. *)
Lemma star_greedy (k : class) (a b : string) (caps : captures) (rest : cont)
    (res : string * captures) :
  all (class_has k) a = true →
  rest b caps = Some res →
  match b with String _ b' => dead rest caps b' | EmptyString => True end →
  star k (a +:+ b) caps rest = Some res.
Proof.
  intros Ha Hb Hdead. induction a as [|c a IH].
  - rewrite str_app_nil_l. destruct b as [|c b]; simpl; [done|].
    destruct (class_has k c); [|done]. by rewrite (star_dead _ _ _ _ Hdead).
  - simpl in Ha. apply andb_prop in Ha as [Hc Ha].
    rewrite str_app_cons. simpl. by rewrite Hc, (IH Ha).
Qed.

Lemma plus_greedy (k : class) (a b : string) (caps : captures) (rest : cont)
    (res : string * captures) :
  a ≠ EmptyString →
  all (class_has k) a = true →
  rest b caps = Some res →
  match b with String _ b' => dead rest caps b' | EmptyString => True end →
  run (Plus k) (a +:+ b) caps rest = Some res.
Proof.
  intros Hne Ha Hb Hdead. destruct a as [|c a]; [done|].
  simpl in Ha. apply andb_prop in Ha as [Hc Ha].
  rewrite str_app_cons. simpl. rewrite Hc. by apply star_greedy.
Qed.

Lemma consumed_app (a b : string) : consumed (a +:+ b) b = a.
Proof.
  unfold consumed. rewrite str_length_app.
  replace (String.length a + String.length b - String.length b)
    with (String.length a) by lia.
  apply upto_app.
Qed.

Lemma run_text (t s : string) (caps : captures) (rest : cont) :
  run (text t) (t +:+ s) caps rest = rest s caps.
Proof.
  induction t as [|c t IH]; [done|].
  rewrite str_app_cons. simpl. by rewrite Ascii.eqb_refl.
Qed.

Lemma dead_without (k : class) (rest : cont) (caps : captures) (s : string) :
  (∀ y, first_in k y = false → rest y caps = None) →
  all (λ c, negb (class_has k c)) s = true →
  dead rest caps s.
Proof.
  intros Hk. induction s as [|c s IH]; simpl.
  - intros _. split; [by apply Hk|done].
  - intros [Hc Hs]%andb_prop. split; [|by apply IH].
    apply Hk. simpl. by apply negb_true_iff.
Qed.

Lemma dead_app_without (k : class) (rest : cont) (caps : captures)
    (s u : string) :
  (∀ y, first_in k y = false → rest y caps = None) →
  all (λ c, negb (class_has k c)) s = true →
  dead rest caps u →
  dead rest caps (s +:+ u).
Proof.
  intros Hk Hs Hu. induction s as [|c s IH]; [done|].
  simpl in Hs. apply andb_prop in Hs as [Hc Hs].
  rewrite str_app_cons. simpl. split; [|by apply IH].
  apply Hk. simpl. by apply negb_true_iff.
Qed.

Lemma spaceless_oneline (s : string) : spaceless s = true → oneline s = true.
Proof.
  unfold spaceless, oneline. induction s as [|c s IH]; [done|]. simpl.
  intros [Hc Hs]%andb_prop. rewrite (IH Hs), andb_true_r.
  destruct (Ascii.eqb c LF) eqn:E; [|done].
  apply Ascii.eqb_eq in E as ->. done.
Qed.

Lemma spaceless_app (s t : string) :
  spaceless (s +:+ t) = spaceless s && spaceless t.
Proof. apply all_app. Qed.

Lemma FindStringSubmatch_at (r : Regexp) (s s' : string) (caps : captures) :
  matchAt r s = Some (s', caps) →
  FindStringSubmatch r s =
    consumed s s' :: map (λ n, group n caps) (seq 1 (NumSubexp r)).
Proof. intros H. destruct s; simpl; by rewrite H. Qed.


Lemma run_cat (r1 r2 : Regexp) (s : string) (caps : captures) (rest : cont) :
  run (Cat r1 r2) s caps rest = run r1 s caps (λ s' caps', run r2 s' caps' rest).
Proof. reflexivity. Qed.

Lemma run_capture (n : nat) (r : Regexp) (s : string) (caps : captures)
    (rest : cont) :
  run (Capture n r) s caps rest
    = run r s caps (λ s' caps', rest s' ((n, consumed s s') :: caps')).
Proof. reflexivity. Qed.

Lemma run_one (k : class) (c : ascii) (s : string) (caps : captures)
    (rest : cont) :
  run (One k) (String c s) caps rest
    = if class_has k c then rest s caps else None.
Proof. reflexivity. Qed.

Lemma run_one_first (k : class) (y : string) (caps : captures) (rest : cont) :
  first_in k y = false → run (One k) y caps rest = None.
Proof. destruct y as [|c y]; [done|]. cbn [first_in]. rewrite run_one. by intros ->. Qed.

(** A match of [(k+)] followed by [r]: the group takes [a] when [r] matches
    what follows and fails from every later place. *)
Lemma run_group_plus (n : nat) (k : class) (r : Regexp) (a b : string)
    (caps : captures) (rest : cont) (res : string * captures) :
  a ≠ EmptyString →
  all (class_has k) a = true →
  run r b ((n, a) :: caps) rest = Some res →
  match b with
  | String _ b' =>
      dead (λ s' caps', run r s' ((n, consumed (a +:+ b) s') :: caps') rest) caps b'
  | EmptyString => True
  end →
  run (Cat (Capture n (Plus k)) r) (a +:+ b) caps rest = Some res.
Proof.
  intros Hne Ha Hb Hdead. rewrite run_cat, run_capture.
  apply plus_greedy; try done.
  cbv beta. by rewrite consumed_app.
Qed.

(** No match of [(k+)] followed by [r] when [r] fails from every place
    after the first character. *)
Lemma run_group_plus_dead (n : nat) (k : class) (r : Regexp) (s : string)
    (caps : captures) (rest : cont) :
  match s with
  | String _ s' =>
      dead (λ s' caps', run r s' ((n, consumed s s') :: caps') rest) caps s'
  | EmptyString => True
  end →
  run (Cat (Capture n (Plus k)) r) s caps rest = None.
Proof. intros H. rewrite run_cat, run_capture. by apply plus_dead. Qed.

End regexp_facts.

(** ** The three patterns of [SetRequestInfo] *)

Module pattern_facts.

Import gostr gostr_facts regexp regexp_facts httplog.


Lemma tail_dead (f : string → captures → captures) (caps : captures)
    (rest : cont) (r : Regexp) (u : string) :
  spaceless u = true →
  dead (λ s' caps', run (Cat (One PerlSpace) r) s' (f s' caps') rest) caps u.
Proof.
  intros Hu. apply (dead_without PerlSpace); [|done].
  intros y Hy. rewrite run_cat. by apply run_one_first.
Qed.

(** The request line [m t HTTP...]: the first group is [m], the second [t]. *)
Lemma pathRegexp_request_line (m t ver : string) :
  m ≠ EmptyString → t ≠ EmptyString →
  oneline m = true → spaceless t = true → spaceless ver = true →
  matchAt pathRegexp (m +:+ " " +:+ t +:+ " HTTP" +:+ ver)
    = Some (ver, [(2, t); (1, m)]).
Proof.
  intros Hm Ht Hom Hst Hsv. unfold matchAt, pathRegexp.
  assert (spaceless ("HTTP" +:+ ver) = true) as Hsh
    by (by rewrite spaceless_app, Hsv).
  apply run_group_plus; [done|done| |].
  - change (" " +:+ t +:+ " HTTP" +:+ ver) with (String " " (t +:+ " HTTP" +:+ ver)).
    rewrite run_cat, run_one.
    replace (class_has PerlSpace " ") with true by done.
    apply run_group_plus; [done|by apply spaceless_oneline| |].
    + change (" HTTP" +:+ ver) with (String " " ("HTTP" +:+ ver)).
      rewrite run_cat, run_one.
      replace (class_has PerlSpace " ") with true by done.
      by rewrite (run_text "HTTP").
    + change (" HTTP" +:+ ver) with (String " " ("HTTP" +:+ ver)).
      by apply (tail_dead (λ s' caps', (2, _) :: caps')).
  - change (" " +:+ t +:+ " HTTP" +:+ ver) with (String " " (t +:+ " HTTP" +:+ ver)).
    apply (dead_app_without PerlSpace); [|done|].
    + intros y Hy. rewrite run_cat. by apply run_one_first.
    + change (" HTTP" +:+ ver) with (String " " ("HTTP" +:+ ver)).
      cbn [dead]. split.
      * rewrite run_cat, run_one.
        replace (class_has PerlSpace " ") with true by done.
        apply run_group_plus_dead.
        change ("HTTP" +:+ ver) with (String "H" ("TTP" +:+ ver)).
        apply (tail_dead (λ s' caps', (2, _) :: caps')).
        change (spaceless ("TTP" +:+ ver) = true).
        by rewrite spaceless_app, Hsv.
      * by apply (tail_dead (λ s' caps', (1, _) :: caps')).
Qed.

Lemma run_group_plus_end (n : nat) (k : class) (a : string)
    (caps : captures) (rest : cont) (res : string * captures) :
  a ≠ EmptyString →
  all (class_has k) a = true →
  rest EmptyString ((n, a) :: caps) = Some res →
  run (Capture n (Plus k)) a caps rest = Some res.
Proof.
  intros Hne Ha Hr. rewrite run_capture.
  rewrite <- (str_app_nil_r a) at 1.
  apply plus_greedy; try done.
  cbv beta. replace (consumed a EmptyString) with a; [done|].
  rewrite <- (str_app_nil_r a) at 2. by rewrite consumed_app.
Qed.





Lemma run_text_none (t s : string) (caps : captures) (rest : cont) :
  HasPrefix s t = false → run (text t) s caps rest = None.
Proof.
  revert s. induction t as [|d t IH]; intros s; [by destruct s|].
  destruct s as [|c s]; [done|]. cbn [HasPrefix text].
  rewrite run_cat, run_one. cbn [class_has].
  destruct (Ascii.eqb c d); [|done]. apply IH.
Qed.

Lemma somewhere_tail (p : string → bool) (c : ascii) (s : string) :
  somewhere p (String c s) = false → p (String c s) = false ∧ somewhere p s = false.
Proof. cbn [somewhere]. apply orb_false_elim. Qed.

Lemma tail_none (z : string) (caps : captures) (rest : cont) :
  spaceHTTP z = false →
  run (Cat (One PerlSpace) (text "HTTP")) z caps rest = None.
Proof.
  destruct z as [|c z]; [done|]. cbn [spaceHTTP].
  rewrite run_cat, run_one. destruct (class_has PerlSpace c); [|done].
  apply run_text_none.
Qed.

Lemma tail_dead_nowhere (f : string → captures → captures) (caps : captures)
    (rest : cont) (z : string) :
  somewhere spaceHTTP z = false →
  dead (λ s' caps', run (Cat (One PerlSpace) (text "HTTP")) s' (f s' caps') rest)
       caps z.
Proof.
  induction z as [|c z IH]; intros H.
  - split; [|done]. by apply tail_none.
  - apply somewhere_tail in H as [H1 H2]. split; [by apply tail_none|by apply IH].
Qed.

Lemma target_none (y : string) (caps : captures) (rest : cont) :
  somewhere spaceHTTP y = false →
  run (Cat (One PerlSpace)
         (Cat (Capture 2 (Plus AnyCharNotNL))
            (Cat (One PerlSpace) (text "HTTP")))) y caps rest = None.
Proof.
  destruct y as [|c y]; [done|]. intros [_ H]%somewhere_tail.
  rewrite run_cat, run_one. destruct (class_has PerlSpace c); [|done].
  apply run_group_plus_dead. destruct y as [|d y]; [done|].
  apply somewhere_tail in H as [_ H].
  by apply (tail_dead_nowhere (λ s' caps', (2, _) :: caps')).
Qed.

Lemma target_dead (f : string → captures → captures) (caps : captures)
    (rest : cont) (y : string) :
  somewhere spaceHTTP y = false →
  dead (λ s' caps',
          run (Cat (One PerlSpace)
                 (Cat (Capture 2 (Plus AnyCharNotNL))
                    (Cat (One PerlSpace) (text "HTTP")))) s' (f s' caps') rest)
       caps y.
Proof.
  induction y as [|c y IH]; intros H.
  - split; [|done]. by apply target_none.
  - split; [by apply target_none|].
    apply somewhere_tail in H as [_ H]. by apply IH.
Qed.

(** A line without white space followed by [HTTP] is no request line. *)
Lemma pathRegexp_nowhere (line : string) :
  somewhere spaceHTTP line = false →
  FindStringSubmatch pathRegexp line = [].
Proof.
  induction line as [|c line IH]; intros H.
  - reflexivity.
  - assert (matchAt pathRegexp (String c line) = None) as Hm.
    { unfold matchAt, pathRegexp. apply run_group_plus_dead.
      apply somewhere_tail in H as [_ H].
      by apply (target_dead (λ s' caps', (1, _) :: caps')). }
    cbn [FindStringSubmatch]. rewrite Hm.
    apply somewhere_tail in H as [_ H]. by apply IH.
Qed.

End pattern_facts.

(** ** Package net: when [SplitHostPort] splits *)

Module net_facts.

Import gostr gostr_facts.

Lemma LastIndexByte_none (c : ascii) (s : string) :
  has c s = false → LastIndexByte s c = None.
Proof.
  induction s as [|d s IH]; [done|].
  rewrite has_cons. intros [Hd Hs]%orb_false_elim.
  simpl. by rewrite (IH Hs), Hd.
Qed.

Lemma LastIndexByte_app (c : ascii) (s t : string) :
  has c t = false → LastIndexByte (s +:+ String c t) c = Some (String.length s).
Proof.
  intros Ht. induction s as [|d s IH].
  - rewrite str_app_nil_l. simpl.
    by rewrite (LastIndexByte_none _ _ Ht), Ascii.eqb_refl.
  - rewrite str_app_cons. simpl. by rewrite IH.
Qed.

Lemma IndexByte_app (c : ascii) (s t : string) :
  has c s = false → IndexByte (s +:+ String c t) c = Some (String.length s).
Proof.
  induction s as [|d s IH]; intros Hs.
  - rewrite str_app_nil_l. simpl. by rewrite Ascii.eqb_refl.
  - rewrite has_cons in Hs. apply orb_false_elim in Hs as [Hd Hs].
    rewrite str_app_cons. simpl. by rewrite Hd, (IH Hs).
Qed.

Lemma first_is_has (c : ascii) (s : string) :
  first_is c s = true → has c s = true.
Proof. destruct s as [|d s]; [done|]. simpl. rewrite has_cons. by intros ->. Qed.

(** [host:port], no colon or bracket in [host] or in [port]. *)
Lemma SplitHostPort_plain (host port : string) :
  has ":" host = false → has "[" host = false → has "]" host = false →
  has ":" port = false → has "[" port = false → has "]" port = false →
  net.SplitHostPort (host +:+ String ":" port) = Some (host, port).
Proof.
  intros Hc Hl Hr Hpc Hpl Hpr. unfold net.SplitHostPort.
  rewrite (LastIndexByte_app _ _ _ Hpc).
  assert (has "[" (host +:+ String ":" port) = false) as Hb1
    by (by rewrite has_app, has_cons, Hl, Hpl).
  assert (has "]" (host +:+ String ":" port) = false) as Hb2
    by (by rewrite has_app, has_cons, Hr, Hpr).
  assert (from (String.length host + 1) (host +:+ String ":" port) = port) as Hp.
  { replace (String.length host + 1) with (String.length (host +:+ ":"))
      by (by rewrite str_length_app).
    replace (host +:+ String ":" port) with ((host +:+ ":") +:+ port)
      by (by rewrite str_app_assoc).
    apply from_app. }
  destruct (first_is "[" (host +:+ String ":" port)) eqn:E.
  { apply first_is_has in E. congruence. }
  by rewrite upto_app, Hc, Hb1, Hb2, Hp.
Qed.


Lemma from_at (n : nat) (s t : string) :
  n = String.length s → from n (s +:+ t) = t.
Proof. intros ->. apply from_app. Qed.

Lemma upto_at (n : nat) (s t : string) :
  n = String.length s → upto n (s +:+ t) = s.
Proof. intros ->. apply upto_app. Qed.

(** [[host]:port], no bracket in [host], no colon or bracket in [port]. *)
Lemma SplitHostPort_bracketed (host port : string) :
  has "[" host = false → has "]" host = false →
  has ":" port = false → has "[" port = false → has "]" port = false →
  net.SplitHostPort ("[" +:+ host +:+ "]:" +:+ port) = Some (host, port).
Proof.
  intros Hl Hr Hpc Hpl Hpr.
  set (hostport := "[" +:+ host +:+ "]:" +:+ port).
  assert (hostport = ("[" +:+ host +:+ "]") +:+ String ":" port) as E1
    by (unfold hostport; by rewrite !str_app_assoc).
  assert (hostport = ("[" +:+ host) +:+ String "]" (":" +:+ port)) as E2
    by (unfold hostport; by rewrite !str_app_assoc).
  assert (hostport = "[" +:+ (host +:+ "]:" +:+ port)) as E3 by done.
  assert (String.length ("[" +:+ host) = S (String.length host)) as L1 by done.
  assert (String.length ("[" +:+ host +:+ "]") = S (String.length host) + 1) as L2.
  { change ("[" +:+ host +:+ "]") with (String "[" (host +:+ "]")).
    cbn [String.length]. rewrite str_length_app. cbn [String.length]. lia. }
  assert (String.length hostport = S (String.length host) + 2 + String.length port) as L3.
  { rewrite E1, str_length_app, L2. cbn [String.length]. lia. }
  unfold net.SplitHostPort.
  rewrite E1 at 1. rewrite (LastIndexByte_app _ _ _ Hpc), L2.
  replace (first_is "[" hostport) with true by done.
  rewrite E2 at 1. rewrite IndexByte_app, L1; [|by rewrite has_app, Hr].
  rewrite L3.
  replace (S (String.length host) + 1 =? S (String.length host) + 2 + String.length port)
    with false by (symmetry; apply Nat.eqb_neq; lia).
  rewrite Nat.eqb_refl.
  replace (has "[" (from 1 hostport)) with false.
  2:{ rewrite E3. rewrite (from_at 1 "[") by done.
      by rewrite !has_app, Hl, Hpl. }
  replace (has "]" (from (S (String.length host) + 1) hostport)) with false.
  2:{ rewrite E1, from_at by done. by rewrite has_cons, Hpr. }
  replace (from (S (String.length host) + 1 + 1) hostport) with port.
  2:{ replace hostport with (("[" +:+ host +:+ "]:") +:+ port)
        by (unfold hostport; by rewrite !str_app_assoc).
      rewrite from_at; [done|].
      change ("[" +:+ host +:+ "]:") with (String "[" (host +:+ "]:")).
      cbn [String.length]. rewrite str_length_app. cbn [String.length]. lia. }
  replace (slice 1 (S (String.length host)) hostport) with host; [done|].
  unfold slice. rewrite E3, (from_at 1 "[") by done.
  rewrite upto_at; [done|lia].
Qed.

Lemma SplitHostPort_no_colon (hostport : string) :
  has ":" hostport = false → net.SplitHostPort hostport = None.
Proof.
  intros H. unfold net.SplitHostPort. by rewrite (LastIndexByte_none _ _ H).
Qed.

Lemma length_zero (s : string) : String.length s = 0 ↔ s = EmptyString.
Proof. by destruct s. Qed.

End net_facts.

(** ** What [SetRequestInfo] leaves alone *)

Module extract_facts.

Import gostr httplog.

Lemma setPath_kept (l : httpLogger) (line : string) (p q : regexp.Regexp) :
  w (setPath l line p q) = w l ∧ status (setPath l line p q) = status l ∧
  extras (setPath l line p q) = extras l.
Proof.
  unfold setPath.
  destruct (0 <? length (regexp.FindStringSubmatch p line)); [|done].
  by destruct (0 <? length _).
Qed.

Lemma setUa_kept (l : httpLogger) (h : string) (r : regexp.Regexp) :
  w (setUa l h r) = w l ∧ status (setUa l h r) = status l ∧
  extras (setUa l h r) = extras l.
Proof. unfold setUa. by destruct (0 <? length _). Qed.

Lemma scan_kept (lines : list string) (l : httpLogger) (line : string) :
  w (fst (foldl scanStep (l, line) lines)) = w l ∧
  status (fst (foldl scanStep (l, line) lines)) = status l ∧
  extras (fst (foldl scanStep (l, line) lines)) = extras l.
Proof.
  revert l line. induction lines as [|x lines IH]; intros l line; [done|].
  simpl. destruct (scanStep (l, line) x) as [l2 line2] eqn:E.
  destruct (IH l2 line2) as (-> & -> & ->).
  unfold scanStep in E. simpl in E. injection E as <- _.
  destruct (setUa_kept (setPath l x pathRegexp getParamsRegexp) x userAgentRegexp)
    as (-> & -> & ->).
  apply setPath_kept.
Qed.

Lemma SetRequestInfo_kept (l : httpLogger) (r : http.Request) :
  w (SetRequestInfo l r) = w l ∧ status (SetRequestInfo l r) = status l ∧
  extras (SetRequestInfo l r) = extras l.
Proof.
  unfold SetRequestInfo.
  match goal with |- context [foldl scanStep ?a ?b] =>
    pose proof (scan_kept b (fst a) (snd a)) as H; simpl in H end.
  destruct (String.length _ =? 0); simpl; exact H.
Qed.

End extract_facts.

(** ** The logger: rendering and the setters *)

Module httplog_facts.

Import gostr gostr_facts httplog.

(** The entry [buildLogEntry] builds, in one piece. *)
Lemma buildLogEntry_eq (l : httpLogger) (now : string)
    (order : list (string * fmt.value)) :
  buildLogEntry l now order =
    "level=I" +:+ " time=" +:+ now +:+ " ip=" +:+ ip l
    +:+ " method=" +:+ method l +:+ " path=" +:+ path l +:+ " ua=" +:+ ua l
    +:+ " status=" +:+ strconv.Itoa (status l) +:+ " params=" +:+ params l
    +:+ cat (map extraEntry order).
Proof.
  unfold buildLogEntry. rewrite foldl_app.
  rewrite str_app_nil_l. by rewrite !str_app_assoc.
Qed.

(** A run of [Log], taken apart. *)
Lemma LogStep_inv (l l' : httpLogger) (tr tr' : trace) :
  LogStep l tr l' tr' →
  ∃ now order,
    rangeOrder (extras l) order ∧ l' = l ∧
    tr' = tr ++ [(w l, buildLogEntry l now order +:+ String LF EmptyString)].
Proof. intros H. inversion H; subst. by eexists _, _. Qed.

(** The orders a range may take list each entry of the map once. *)
Lemma rangeOrder_entries (m : gmap string fmt.value)
    (order : list (string * fmt.value)) :
  rangeOrder m order →
  NoDup order ∧ ∀ k v, (k, v) ∈ order ↔ m !! k = Some v.
Proof.
  unfold rangeOrder. intros Hp. split.
  - rewrite Hp. apply NoDup_map_to_list.
  - intros k v. rewrite Hp. apply elem_of_map_to_list.
Qed.

Lemma rangeOrder_empty (order : list (string * fmt.value)) :
  rangeOrder ∅ order → order = [].
Proof.
  unfold rangeOrder. rewrite map_to_list_empty.
  apply Permutation_nil_r.
Qed.

(** With at most one entry there is one order only. *)
Lemma rangeOrder_small (m : gmap string fmt.value)
    (o1 o2 : list (string * fmt.value)) :
  size m ≤ 1 → rangeOrder m o1 → rangeOrder m o2 → o1 = o2.
Proof.
  unfold rangeOrder. intros Hsz H1 H2.
  rewrite <- length_map_to_list in Hsz.
  destruct (map_to_list m) as [|kv [|kv' rest]]; simpl in Hsz; [| |lia].
  - apply Permutation_nil_r in H1, H2. congruence.
  - apply Permutation_singleton_r in H1, H2. congruence.
Qed.

End httplog_facts.

(** ** Claims about [SetRequestInfo] *)

Module ExtractSpec.

Import gostr gostr_facts regexp regexp_facts pattern_facts httplog samples.

Lemma setPath_nomatch (l : httpLogger) (line : string) :
  FindStringSubmatch pathRegexp line = [] →
  setPath l line pathRegexp getParamsRegexp = l.
Proof. intros H. unfold setPath. by rewrite H. Qed.

Lemma setUa_fields (l : httpLogger) (h : string) (r : Regexp) :
  method (setUa l h r) = method l ∧ path (setUa l h r) = path l ∧
  params (setUa l h r) = params l.
Proof. unfold setUa. by destruct (0 <? length _). Qed.

(** Lines that are no request line leave method, path and params alone. *)
Lemma scan_nomatch (lines : list string) (l : httpLogger) (line : string) :
  Forall (λ x, FindStringSubmatch pathRegexp x = []) lines →
  method (fst (foldl scanStep (l, line) lines)) = method l ∧
  path (fst (foldl scanStep (l, line) lines)) = path l ∧
  params (fst (foldl scanStep (l, line) lines)) = params l.
Proof.
  revert l line. induction lines as [|x lines IH]; intros l line Hall; [done|].
  apply Forall_cons in Hall as [Hx Hall].
  simpl. destruct (scanStep (l, line) x) as [l2 line2] eqn:E.
  destruct (IH l2 line2 Hall) as (-> & -> & ->).
  unfold scanStep in E. simpl in E. injection E as <- _.
  rewrite (setPath_nomatch _ _ Hx). apply setUa_fields.
Qed.

Lemma SetRequestInfo_lines (l : httpLogger) (r : http.Request) :
  SetRequestInfo l r =
    let st := foldl scanStep
                (set_reqRaw (set_ip l (getIP r)) (reqDump r), EmptyString)
                (bufio.ScanLines (reqDump r)) in
    if String.length (params (fst st)) =? 0
    then set_params (fst st) (snd st) else fst st.
Proof. reflexivity. Qed.







(** C1 says that after [SetRequestInfo] the fields ip, method, path, ua and
    params are what the request alone gives, whatever the logger held
    before.  The code departs from it: what an earlier request left in the
    logger survives.  After GET /logs?q=works a form is posted, without
    query string and without User-Agent header: params and ua keep the
    values of the first request, where a fresh logger takes the body of the
    form for params and leaves ua empty; so the same request leaves two
    loggers with different fields.  Only ip, method and path are those of
    the new request. *)
Theorem C1_earlier_request_survives :
  let first := SetRequestInfo (New 1) get_query in
  (params first = "{" +:+ quoted "q" +:+ ": " +:+ quoted "works" +:+ "}" ∧
   ua first = "curl/8.0") ∧
  (params (SetRequestInfo first post_form) = params first ∧
   ua (SetRequestInfo first post_form) = ua first) ∧
  (params (SetRequestInfo (New 1) post_form) = "name=alice&age=7" ∧
   ua (SetRequestInfo (New 1) post_form) = EmptyString) ∧
  (params (SetRequestInfo first post_form)
     ≠ params (SetRequestInfo (New 1) post_form) ∧
   ua (SetRequestInfo first post_form)
     ≠ ua (SetRequestInfo (New 1) post_form)) ∧
  (ip (SetRequestInfo first post_form) = "193.92.20.19" ∧
   method (SetRequestInfo first post_form) = "POST" ∧
   path (SetRequestInfo first post_form) = "/signup").
Proof. by vm_compute. Qed.

End ExtractSpec.

(** ** Claims about [Log], [New], [SetStatus] and [Add] *)

Module LoggerSpec.

Import gostr gostr_facts httplog httplog_facts samples.

Lemma sample_uid_first : rangeOrder (extras sample) uid_first.
Proof. unfold rangeOrder. vm_compute. apply perm_swap. Defined.

Lemma sample_meta_first : rangeOrder (extras sample) meta_first.
Proof. unfold rangeOrder. vm_compute. reflexivity. Defined.

(** C3: one call of [Log] makes exactly one write to the logger's writer;
    the bytes written are [level=I], then the fields time, ip, method,
    path, ua, status (in decimal) and params in that order, each as a
    space followed by key=value, then one such segment for each entry of
    extras, then one line feed and nothing else. *)
Theorem C3_log_writes_one_line (l l' : httpLogger) (tr tr' : trace) :
  LogStep l tr l' tr' →
  ∃ now order,
    NoDup order ∧ (∀ k v, (k, v) ∈ order ↔ extras l !! k = Some v) ∧
    Z.of_int <$> NilEmpty.int_of_string (strconv.Itoa (status l))
      = Some (status l) ∧
    tr' = tr ++ [(w l,
      "level=I" +:+ " time=" +:+ now +:+ " ip=" +:+ ip l
      +:+ " method=" +:+ method l +:+ " path=" +:+ path l
      +:+ " ua=" +:+ ua l +:+ " status=" +:+ strconv.Itoa (status l)
      +:+ " params=" +:+ params l
      +:+ cat (map (λ kv, " " +:+ fst kv +:+ "=" +:+ fmt.Sprintf_v (snd kv)) order)
      +:+ String LF EmptyString)].
Proof.
  intros (now & order & Hord & -> & ->)%LogStep_inv.
  exists now, order. destruct (rangeOrder_entries _ _ Hord) as [Hnd Hin].
  repeat split; try done; try apply Hin.
  - apply strconv_facts.Itoa_decimal.
  - rewrite buildLogEntry_eq. by rewrite !str_app_assoc.
Qed.

Lemma C3_witness :
  ∃ now order,
    NoDup order ∧ (∀ k v, (k, v) ∈ order ↔ extras sample !! k = Some v) ∧
    Z.of_int <$> NilEmpty.int_of_string (strconv.Itoa (status sample))
      = Some (status sample) ∧
    snd (Log sample "2017-07-08T17:08:12UTC" meta_first []) = [] ++ [(w sample,
      "level=I" +:+ " time=" +:+ now +:+ " ip=" +:+ ip sample
      +:+ " method=" +:+ method sample +:+ " path=" +:+ path sample
      +:+ " ua=" +:+ ua sample +:+ " status=" +:+ strconv.Itoa (status sample)
      +:+ " params=" +:+ params sample
      +:+ cat (map (λ kv, " " +:+ fst kv +:+ "=" +:+ fmt.Sprintf_v (snd kv)) order)
      +:+ String LF EmptyString)].
Proof.
  apply (C3_log_writes_one_line sample
           (fst (Log sample "2017-07-08T17:08:12UTC" meta_first [])) []).
  apply LogStep_run. apply sample_meta_first.
Defined.

(** The line this logger writes, in full. *)
Example sample_line :
  snd (Log sample "2017-07-08T17:08:12UTC" meta_first []) =
    [(7, "level=I time=2017-07-08T17:08:12UTC ip=193.92.20.19 method=GET path=/logs ua=Mozilla/5.0 status=200 params={} meta=new-request uid=1234"
         +:+ String LF EmptyString)].
Proof. reflexivity. Qed.

(** C8: [Log] leaves the logger as it found it, every field and the writer
    it is bound to; all it does is add one write to that writer, after the
    writes made before. *)
Theorem C8_log_frame (l l' : httpLogger) (tr tr' : trace) :
  LogStep l tr l' tr' →
  l' = l ∧
  (w l' = w l ∧ ip l' = ip l ∧ method l' = method l ∧ path l' = path l ∧
   ua l' = ua l ∧ params l' = params l ∧ status l' = status l ∧
   reqRaw l' = reqRaw l ∧ extras l' = extras l) ∧
  ∃ line, tr' = tr ++ [(w l, line)].
Proof.
  intros (now & order & Hord & -> & ->)%LogStep_inv.
  repeat split. by eexists.
Qed.

Lemma C8_witness :
  fst (Log sample "2017-07-08T17:08:12UTC" uid_first [(3, "earlier")]) = sample ∧
  ∃ line,
    snd (Log sample "2017-07-08T17:08:12UTC" uid_first [(3, "earlier")])
      = [(3, "earlier")] ++ [(w sample, line)].
Proof.
  pose proof (C8_log_frame sample _ [(3, "earlier")] _
    (LogStep_run sample [(3, "earlier")] "2017-07-08T17:08:12UTC" uid_first
       sample_uid_first)) as (H1 & _ & H2).
  exact (conj H1 H2).
Defined.

(** C9: a logger fresh from [New] has empty ip, method, path, ua and
    params, status 0 and an allocated, empty extras map (a first [Add]
    stores its entry); its first [Log] writes the line
    [level=I time=<now> ip= method= path= ua= status=0 params=] and a
    line feed. *)
Theorem C9_new_logger (wr : Writer) :
  ip (New wr) = EmptyString ∧ method (New wr) = EmptyString ∧
  path (New wr) = EmptyString ∧ ua (New wr) = EmptyString ∧
  params (New wr) = EmptyString ∧ status (New wr) = 0%Z ∧
  extras (New wr) = ∅ ∧
  (∀ k v, extras (Add (New wr) k v) = {[ k := v ]}) ∧
  ∀ tr l' tr', LogStep (New wr) tr l' tr' →
    ∃ now, tr' = tr ++ [(wr,
      "level=I time=" +:+ now +:+ " ip= method= path= ua= status=0 params="
      +:+ String LF EmptyString)].
Proof.
  repeat split; try done.
  intros tr l' tr' (now & order & Hord & -> & ->)%LogStep_inv.
  apply rangeOrder_empty in Hord as ->.
  exists now. rewrite buildLogEntry_eq. simpl.
  by rewrite !str_app_nil_l, !str_app_nil_r, !str_app_assoc.
Qed.

Lemma C9_witness :
  ∃ now, snd (Log (New 1) "2017-07-08T17:08:12UTC" [] []) = [] ++ [(1,
    "level=I time=" +:+ now +:+ " ip= method= path= ua= status=0 params="
    +:+ String LF EmptyString)].
Proof.
  destruct (C9_new_logger 1) as (_ & _ & _ & _ & _ & _ & _ & _ & H).
  apply (H [] (fst (Log (New 1) "2017-07-08T17:08:12UTC" [] []))).
  apply LogStep_run. unfold rangeOrder. vm_compute. reflexivity.
Defined.

(** C10: [SetStatus] sets the status and nothing else; [Add] sets the
    entry of extras at its key and nothing else, the other entries of
    extras included. *)
Theorem C10_setters_frame (l : httpLogger) :
  (∀ s,
     status (SetStatus l s) = s ∧
     w (SetStatus l s) = w l ∧ ip (SetStatus l s) = ip l ∧
     method (SetStatus l s) = method l ∧ path (SetStatus l s) = path l ∧
     ua (SetStatus l s) = ua l ∧ params (SetStatus l s) = params l ∧
     reqRaw (SetStatus l s) = reqRaw l ∧ extras (SetStatus l s) = extras l) ∧
  (∀ k v,
     extras (Add l k v) !! k = Some v ∧
     (∀ k', k' ≠ k → extras (Add l k v) !! k' = extras l !! k') ∧
     w (Add l k v) = w l ∧ ip (Add l k v) = ip l ∧
     method (Add l k v) = method l ∧ path (Add l k v) = path l ∧
     ua (Add l k v) = ua l ∧ params (Add l k v) = params l ∧
     status (Add l k v) = status l ∧ reqRaw (Add l k v) = reqRaw l).
Proof.
  split; [by intros s|].
  intros k v. simpl. repeat split.
  - apply lookup_insert_eq.
  - intros k' Hne. by apply lookup_insert_ne.
Qed.

Lemma C10_witness :
  extras (Add sample "uid" (fmt.Int 7%Z)) !! "uid" = Some (fmt.Int 7%Z) ∧
  extras (Add sample "uid" (fmt.Int 7%Z)) !! "meta" = extras sample !! "meta" ∧
  status (Add sample "uid" (fmt.Int 7%Z)) = status sample.
Proof.
  destruct (C10_setters_frame sample) as [_ H].
  destruct (H "uid" (fmt.Int 7%Z)) as (H1 & H2 & _ & _ & _ & _ & _ & _ & H3 & _).
  refine (conj H1 (conj (H2 "meta" _) H3)). by intros [=].
Defined.

(** C7: two calls of [Log] in a row, nothing done to the logger in between,
    write two lines with the same fixed fields (ip, method, path, ua, status,
    params) and the same extras segments; the segments of the second line are
    those of the first in some order, and in the same order when extras has
    at most one entry, so that the two lines then differ in the time only. *)
Theorem C7_log_twice (l l1 l2 : httpLogger) (tr tr1 tr2 : trace) :
  LogStep l tr l1 tr1 → LogStep l1 tr1 l2 tr2 →
  ∃ now1 now2 order1 order2,
    let fixed :=
      " ip=" +:+ ip l +:+ " method=" +:+ method l +:+ " path=" +:+ path l
      +:+ " ua=" +:+ ua l +:+ " status=" +:+ strconv.Itoa (status l)
      +:+ " params=" +:+ params l in
    tr2 = tr ++
      [(w l, "level=I time=" +:+ now1 +:+ fixed
               +:+ cat (map extraEntry order1) +:+ String LF EmptyString);
       (w l, "level=I time=" +:+ now2 +:+ fixed
               +:+ cat (map extraEntry order2) +:+ String LF EmptyString)] ∧
    order1 ≡ₚ order2 ∧
    (size (extras l) ≤ 1 → order1 = order2).
Proof.
  intros (now1 & order1 & Hord1 & -> & ->)%LogStep_inv.
  intros (now2 & order2 & Hord2 & -> & ->)%LogStep_inv.
  exists now1, now2, order1, order2. simpl. split; [|split].
  - rewrite <- List.app_assoc. simpl. rewrite !buildLogEntry_eq.
    by rewrite !str_app_assoc.
  - unfold rangeOrder in *. by rewrite Hord1, Hord2.
  - intros Hsz. by apply (rangeOrder_small (extras l)).
Qed.

Lemma C7_witness :
  ∃ now1 now2 order1 order2,
    snd (Log sample "2017-07-08T17:08:13UTC" meta_first
           (snd (Log sample "2017-07-08T17:08:12UTC" uid_first []))) = [] ++
      [(w sample, "level=I time=" +:+ now1
               +:+ " ip=193.92.20.19 method=GET path=/logs ua=Mozilla/5.0 status=200 params={}"
               +:+ cat (map extraEntry order1) +:+ String LF EmptyString);
       (w sample, "level=I time=" +:+ now2
               +:+ " ip=193.92.20.19 method=GET path=/logs ua=Mozilla/5.0 status=200 params={}"
               +:+ cat (map extraEntry order2) +:+ String LF EmptyString)] ∧
    order1 ≡ₚ order2 ∧
    (size (extras sample) ≤ 1 → order1 = order2).
Proof.
  apply (C7_log_twice sample sample
           (fst (Log sample "2017-07-08T17:08:13UTC" meta_first
                   (snd (Log sample "2017-07-08T17:08:12UTC" uid_first []))))
           [] (snd (Log sample "2017-07-08T17:08:12UTC" uid_first []))).
  - apply (LogStep_run sample [] "2017-07-08T17:08:12UTC" uid_first).
    apply sample_uid_first.
  - apply (LogStep_run sample _ "2017-07-08T17:08:13UTC" meta_first).
    apply sample_meta_first.
Defined.

(** C7 as it is stated fails: the logger [sample] has two extras, and two
    calls of [Log] in a row may write them in different orders, so the two
    lines differ after the time field too. *)
Lemma C7_counterexample :
  ∃ tr1 tr2 rest1 rest2,
    LogStep sample [] sample tr1 ∧ LogStep sample tr1 sample tr2 ∧
    tr2 = [(7, "level=I time=" +:+ "2017-07-08T17:08:12UTC" +:+ rest1);
           (7, "level=I time=" +:+ "2017-07-08T17:08:13UTC" +:+ rest2)] ∧
    rest1 ≠ rest2.
Proof.
  exists (snd (Log sample "2017-07-08T17:08:12UTC" uid_first [])),
         (snd (Log sample "2017-07-08T17:08:13UTC" meta_first
                 (snd (Log sample "2017-07-08T17:08:12UTC" uid_first [])))).
  exists (" ip=193.92.20.19 method=GET path=/logs ua=Mozilla/5.0 status=200 params={} uid=1234 meta=new-request"
            +:+ String LF EmptyString),
         (" ip=193.92.20.19 method=GET path=/logs ua=Mozilla/5.0 status=200 params={} meta=new-request uid=1234"
            +:+ String LF EmptyString).
  split; [|split; [|split]].
  - apply (LogStep_run sample [] "2017-07-08T17:08:12UTC" uid_first).
    apply sample_uid_first.
  - apply (LogStep_run sample _ "2017-07-08T17:08:13UTC" meta_first).
    apply sample_meta_first.
  - reflexivity.
  - by vm_compute.
Qed.

End LoggerSpec.

(** ** Claims about the extraction of the ip *)

Module IPSpec.

Import gostr gostr_facts net_facts httplog samples.

(** C4: when the first value of the X-Forwarded-For header is not empty,
    the ip is that value as it stands.  Otherwise (no such header, or an
    empty one) the ip is the host that [net.SplitHostPort] finds in the
    peer address: the text before the colon of [host:port], the text
    between the brackets of [[host]:port]; and the peer address as it
    stands when it cannot be split, as when it has no colon. *)
Theorem C4_getIP (r : http.Request) :
  let forwarded := http.Header_Get (http.Header r) "X-Forwarded-For" in
  (forwarded ≠ EmptyString → getIP r = forwarded) ∧
  (forwarded = EmptyString → ∀ host port,
     http.RemoteAddr r = host +:+ ":" +:+ port →
     has ":" host = false → has "[" host = false → has "]" host = false →
     has ":" port = false → has "[" port = false → has "]" port = false →
     getIP r = host) ∧
  (forwarded = EmptyString → ∀ host port,
     http.RemoteAddr r = "[" +:+ host +:+ "]:" +:+ port →
     has "[" host = false → has "]" host = false →
     has ":" port = false → has "[" port = false → has "]" port = false →
     getIP r = host) ∧
  (forwarded = EmptyString → net.SplitHostPort (http.RemoteAddr r) = None →
     getIP r = http.RemoteAddr r) ∧
  (forwarded = EmptyString → has ":" (http.RemoteAddr r) = false →
     getIP r = http.RemoteAddr r).
Proof.
  intros forwarded. unfold getIP. fold forwarded.
  repeat split.
  - intros Hne. destruct (0 <? String.length forwarded) eqn:E; [done|].
    apply Nat.ltb_ge in E. destruct Hne. apply length_zero. lia.
  - intros -> host port -> ? ? ? ? ? ?. simpl.
    change (host +:+ ":" +:+ port) with (host +:+ String ":" port).
    by rewrite SplitHostPort_plain.
  - intros -> host port -> ? ? ? ? ?. simpl.
    by rewrite SplitHostPort_bracketed.
  - by intros -> ->.
  - intros -> H. simpl. by rewrite SplitHostPort_no_colon.
Qed.

Lemma C4_witness :
  getIP forwarded = "127.0.0.1, 10.1.1.1" ∧
  getIP ipv4_peer = "192.0.2.1" ∧
  getIP ipv6_peer = "::1" ∧
  getIP portless_peer = "192.0.2.1".
Proof.
  split; [|split; [|split]].
  - destruct (C4_getIP forwarded) as (H & _). by apply H.
  - destruct (C4_getIP ipv4_peer) as (_ & H & _).
    apply (H eq_refl "192.0.2.1" "1234"); reflexivity.
  - destruct (C4_getIP ipv6_peer) as (_ & _ & H & _).
    apply (H eq_refl "::1" "4711"); reflexivity.
  - destruct (C4_getIP portless_peer) as (_ & _ & _ & _ & H).
    apply H; reflexivity.
Defined.

(** C4 as it is stated fails twice.  A request that carries the header with
    an empty value gets the peer's host, not the empty value; and for a
    bracketed IPv6 peer the brackets go as well, so the ip is not what is
    left of the peer address when the last colon and what follows are cut. *)
Lemma C4_counterexample :
  (getIP empty_forwarded = "10.0.0.1" ∧ worded.ip empty_forwarded = EmptyString) ∧
  (getIP ipv6_peer = "::1" ∧ worded.ip ipv6_peer = "[::1]").
Proof. by vm_compute. Qed.

End IPSpec.

(** ** Claims about the middleware *)

Module MiddlewareSpec.

Import gostr httplog gofunc middleware extract_facts samples.

(** Feeding calls to the wrapper: each reaches the embedded writer, and the
    status kept is the argument of the last [WriteHeader]. *)
Lemma foldl_lrw_call (cs rs : list http.call) (s : Z) :
  foldl lrw_call (mkLrw rs s) cs
    = mkLrw (rs ++ cs) (default s (last (statuses cs))).
Proof.
  revert rs s. induction cs as [|c cs IH]; intros rs s; simpl.
  - by rewrite app_nil_r.
  - destruct c as [st|p]; unfold lrw_call, lrw_WriteHeader, lrw_Write;
      simpl; rewrite IH, <- List.app_assoc; simpl.
    + unfold statuses. simpl. fold (statuses cs).
      rewrite last_cons. by destruct (last (statuses cs)).
    + done.
Qed.

(** When the handler returns, [ServeHTTP] logs once, with the status of the
    handler's last [WriteHeader]. *)
Lemma ServeHTTP_returns (h : loggingHandler) (r : http.Request) (now : string)
    (order : list (string * fmt.value)) (l : httpLogger) (tr : trace) :
  snd (next h r) = Returns →
  ServeHTTP h r now order (enter l tr) =
    (let l' := SetStatus (SetRequestInfo l r)
                 (default 0%Z (last (statuses (fst (next h r))))) in
     mkState l' (tr ++ [(w l, buildLogEntry l' now order +:+ String LF EmptyString)])
             (fst (next h r))
             (mkLrw (fst (next h r)) (default 0%Z (last (statuses (fst (next h r)))))),
     Returns).
Proof.
  intros Hret. unfold ServeHTTP, ServeHTTP_body, enter, serve. simpl.
  rewrite Hret. simpl. rewrite foldl_lrw_call. simpl.
  unfold Log. simpl.
  destruct (SetRequestInfo_kept l r) as (Hw & _ & _).
  by rewrite Hw.
Qed.

(** When the handler panics, [ServeHTTP] has not reached its [defer]: the
    panic leaves through it and nothing is logged. *)
Lemma ServeHTTP_panics (h : loggingHandler) (r : http.Request) (now : string)
    (order : list (string * fmt.value)) (l : httpLogger) (tr : trace) :
  snd (next h r) = Panics →
  ServeHTTP h r now order (enter l tr) =
    (mkState (SetRequestInfo l r) tr (fst (next h r))
             (mkLrw (fst (next h r)) (default 0%Z (last (statuses (fst (next h r)))))),
     Panics).
Proof.
  intros Hp. unfold ServeHTTP, ServeHTTP_body, enter, serve. simpl.
  rewrite Hp. simpl. by rewrite foldl_lrw_call.
Qed.




(** C6 says that [Log] runs exactly once for every request, after the
    handler has returned, also when the handler panics.  The code departs
    from it: a handler that panics is not logged at all.  The panic unwinds
    out of [ServeHTTP] from the call of the handler, before the [defer]
    statement below it has run, so no write reaches the writer; a handler
    that returns is logged once, after its calls. *)
Theorem C6_panic_is_not_logged :
  snd (panicking_handler test_server_get) = Panics ∧
  snd (ServeHTTP (WithLogging panicking_handler) test_server_get
         "2017-07-08T17:08:12UTC" [] (enter (New 1) [])) = Panics ∧
  sink (fst (ServeHTTP (WithLogging panicking_handler) test_server_get
               "2017-07-08T17:08:12UTC" [] (enter (New 1) []))) = [] ∧
  sink (fst (ServeHTTP (WithLogging ok_handler) test_server_get
               "2017-07-08T17:08:12UTC" [] (enter (New 1) [])))
    = [(1, "level=I time=2017-07-08T17:08:12UTC ip=127.0.0.1 method=GET path=/ ua=Go-http-client/1.1 status=200 params={"
             +:+ quoted "foo" +:+ ": " +:+ quoted "bar" +:+ "}"
             +:+ String LF EmptyString)].
Proof.
  split; [done|].
  rewrite (ServeHTTP_panics (WithLogging panicking_handler)) by done.
  rewrite (ServeHTTP_returns (WithLogging ok_handler)) by done.
  by vm_compute.
Qed.

End MiddlewareSpec.

(** * Further properties of the code *)

(** ** Package regexp: what a match says about the text *)

Module regexp_inv.

Import gostr gostr_facts regexp regexp_facts pattern_facts httplog.

(** Where greedy repetition succeeds, it has taken characters of the class
    and the rest of the pattern has matched what follows. *)
Lemma star_inv (k : class) (s : string) (caps : captures) (rest : cont)
    (res : string * captures) :
  star k s caps rest = Some res →
  ∃ a b, s = a +:+ b ∧ all (class_has k) a = true ∧ rest b caps = Some res.
Proof.
  induction s as [|c s IH]; cbn [star]; intros H.
  - by exists EmptyString, EmptyString.
  - destruct (class_has k c) eqn:Hc.
    + destruct (star k s caps rest) as [res'|] eqn:E.
      * injection H as <-. destruct (IH eq_refl) as (a & b & -> & Ha & Hb).
        exists (String c a), b. rewrite str_app_cons. cbn [all].
        by rewrite Hc, Ha.
      * by exists EmptyString, (String c s).
    + by exists EmptyString, (String c s).
Qed.

Lemma plus_inv (k : class) (s : string) (caps : captures) (rest : cont)
    (res : string * captures) :
  run (Plus k) s caps rest = Some res →
  ∃ a b, s = a +:+ b ∧ a ≠ EmptyString ∧ all (class_has k) a = true ∧
         rest b caps = Some res.
Proof.
  destruct s as [|c s]; cbn [run]; [done|].
  destruct (class_has k c) eqn:Hc; [|done].
  intros (a & b & -> & Ha & Hb)%star_inv.
  exists (String c a), b. rewrite str_app_cons. cbn [all].
  by rewrite Hc, Ha.
Qed.

Lemma group_plus_inv (n : nat) (k : class) (s : string) (caps : captures)
    (rest : cont) (res : string * captures) :
  run (Capture n (Plus k)) s caps rest = Some res →
  ∃ a b, s = a +:+ b ∧ a ≠ EmptyString ∧ all (class_has k) a = true ∧
         rest b ((n, a) :: caps) = Some res.
Proof.
  rewrite run_capture. intros (a & b & -> & Hne & Ha & Hb)%plus_inv.
  exists a, b. cbv beta in Hb. by rewrite consumed_app in Hb.
Qed.

Lemma one_inv (k : class) (s : string) (caps : captures) (rest : cont)
    (res : string * captures) :
  run (One k) s caps rest = Some res →
  ∃ c s', s = String c s' ∧ class_has k c = true ∧ rest s' caps = Some res.
Proof.
  destruct s as [|c s]; cbn [run]; [done|].
  destruct (class_has k c) eqn:Hc; [|done]. intros H. by exists c, s.
Qed.

Lemma text_inv (t s : string) (caps : captures) (rest : cont)
    (res : string * captures) :
  run (text t) s caps rest = Some res →
  ∃ s', s = t +:+ s' ∧ rest s' caps = Some res.
Proof.
  revert s. induction t as [|d t IH]; intros s; cbn [text].
  - intros H. by exists s.
  - rewrite run_cat. intros (c & s' & -> & Hc & H)%one_inv.
    cbn [class_has] in Hc. apply Ascii.eqb_eq in Hc as ->.
    apply IH in H as (s'' & -> & H). by exists s''.
Qed.

(** A match of [pathRegexp], taken apart. *)
Lemma pathRegexp_inv (s s' : string) (caps : captures) :
  matchAt pathRegexp s = Some (s', caps) →
  ∃ m t w1 w2,
    caps = [(2, t); (1, m)] ∧
    s = m +:+ String w1 (t +:+ String w2 ("HTTP" +:+ s')) ∧
    m ≠ EmptyString ∧ t ≠ EmptyString ∧
    oneline m = true ∧ oneline t = true ∧
    class_has PerlSpace w1 = true ∧ class_has PerlSpace w2 = true.
Proof.
  unfold matchAt, pathRegexp. rewrite run_cat.
  intros (m & b & -> & Hm & Hom & H)%group_plus_inv.
  rewrite run_cat in H. apply one_inv in H as (w1 & b1 & -> & Hw1 & H).
  rewrite run_cat in H.
  apply group_plus_inv in H as (t & b2 & -> & Ht & Hot & H).
  rewrite run_cat in H. apply one_inv in H as (w2 & b3 & -> & Hw2 & H).
  apply text_inv in H as (s'' & -> & H). injection H as <- <-.
  by exists m, t, w1, w2.
Qed.

(** A match of [getParamsRegexp], taken apart. *)
Lemma getParamsRegexp_inv (s s' : string) (caps : captures) :
  matchAt getParamsRegexp s = Some (s', caps) →
  ∃ a b,
    caps = [(2, b); (1, a)] ∧ s = a +:+ String "?" (b +:+ s') ∧
    a ≠ EmptyString ∧ b ≠ EmptyString ∧ oneline a = true ∧ oneline b = true.
Proof.
  unfold matchAt, getParamsRegexp. rewrite run_cat.
  intros (a & b0 & -> & Ha & Hoa & H)%group_plus_inv.
  rewrite run_cat in H. apply one_inv in H as (c & b1 & -> & Hc & H).
  cbn [class_has] in Hc. apply Ascii.eqb_eq in Hc as ->.
  apply group_plus_inv in H as (b & b2 & -> & Hb & Hob & H).
  injection H as <- <-. by exists a, b.
Qed.

(** A match of [userAgentRegexp], taken apart. *)
Lemma userAgentRegexp_inv (s s' : string) (caps : captures) :
  matchAt userAgentRegexp s = Some (s', caps) →
  ∃ w v,
    caps = [(1, v)] ∧ s = "User-Agent:" +:+ String w (v +:+ s') ∧
    v ≠ EmptyString ∧ oneline v = true ∧ class_has PerlSpace w = true.
Proof.
  unfold matchAt, userAgentRegexp. rewrite run_cat.
  intros (s0 & -> & H)%text_inv.
  rewrite run_cat in H. apply one_inv in H as (w & s1 & -> & Hw & H).
  apply group_plus_inv in H as (v & s2 & -> & Hv & Hov & H).
  injection H as <- <-. by exists w, v.
Qed.

(** [FindStringSubmatch] finds nothing, or a match at some suffix. *)
Lemma FindStringSubmatch_inv (r : Regexp) (s : string) :
  FindStringSubmatch r s = [] ∨
  ∃ pre s0 s' caps,
    s = pre +:+ s0 ∧ matchAt r s0 = Some (s', caps) ∧
    FindStringSubmatch r s
      = consumed s0 s' :: map (λ n, group n caps) (seq 1 (NumSubexp r)).
Proof.
  induction s as [|c s IH].
  - cbn [FindStringSubmatch]. destruct (matchAt r EmptyString) as [[s' caps]|] eqn:E.
    + right. by exists EmptyString, EmptyString, s', caps.
    + by left.
  - cbn [FindStringSubmatch]. destruct (matchAt r (String c s)) as [[s' caps]|] eqn:E.
    + right. by exists EmptyString, (String c s), s', caps.
    + destruct IH as [IH|(pre & s0 & s' & caps & -> & Hm & IH)]; [by left|].
      right. exists (String c pre), s0, s', caps. by rewrite str_app_cons.
Qed.

End regexp_inv.

(** ** Line feeds: where the code cannot put one *)

Module oneline_facts.

Import gostr gostr_facts regexp regexp_facts pattern_facts regexp_inv httplog.

Lemma oneline_has (s : string) : oneline s = true ↔ has LF s = false.
Proof.
  unfold oneline, has. cbn [class_has]. rewrite negb_false_iff. done.
Qed.

Lemma has_upto (c : ascii) (n : nat) (s : string) :
  has c s = false → has c (upto n s) = false.
Proof.
  revert n. induction s as [|d s IH]; intros [|n]; try done.
  cbn [upto]. rewrite !has_cons. intros [-> H]%orb_false_elim. by apply IH.
Qed.

Lemma has_from (c : ascii) (n : nat) (s : string) :
  has c s = false → has c (from n s) = false.
Proof.
  revert n. induction s as [|d s IH]; intros [|n]; try done.
  cbn [from]. rewrite has_cons. intros [_ H]%orb_false_elim. by apply IH.
Qed.

(** The replacer puts no line feed where there was none. *)
Lemma toJSON_oneline (s : string) : has LF s = false → has LF (toJSON s) = false.
Proof.
  intros Hs.
  assert (has LF (strings.Replace jsonPairs s) = false) as H.
  { induction s as [|c s IH]; [done|].
    rewrite has_cons in Hs. apply orb_false_elim in Hs as [Hc Hs].
    cbn [strings.Replace jsonPairs strings.lookup_byte].
    destruct (Ascii.eqb c "="); [by rewrite has_app, (IH Hs)|].
    destruct (Ascii.eqb c "&"); [by rewrite has_app, (IH Hs)|].
    by rewrite has_cons, Hc, (IH Hs). }
  unfold toJSON. by rewrite !has_app, H.
Qed.

(** What [setPath] can do to a logger: nothing; or set method and path to
    two texts of the line, not empty and without line feed; or, besides,
    cut the path at a question mark and set params to the transform of what
    follows. *)
Lemma setPath_cases (l : httpLogger) (line : string) :
  setPath l line pathRegexp getParamsRegexp = l ∨
  ∃ m t, m ≠ EmptyString ∧ t ≠ EmptyString ∧
    oneline m = true ∧ oneline t = true ∧
    (setPath l line pathRegexp getParamsRegexp = set_path (set_method l m) t ∨
     ∃ a b, a ≠ EmptyString ∧ b ≠ EmptyString ∧
       oneline a = true ∧ oneline b = true ∧
       setPath l line pathRegexp getParamsRegexp
         = set_params (set_path (set_path (set_method l m) t) a) (toJSON b)).
Proof.
  unfold setPath.
  destruct (FindStringSubmatch_inv pathRegexp line)
    as [->|(pre & s0 & s' & caps & -> & Hm & ->)]; [by left|].
  right. apply pathRegexp_inv in Hm
    as (m & t & w1 & w2 & -> & -> & Hm & Ht & Hom & Hot & _ & _).
  exists m, t. repeat (split; [done|]).
  cbn [length Nat.ltb Nat.leb NumSubexp pathRegexp seq map group Nat.eqb
       lookup_total list_lookup_total Nat.add].
  destruct (FindStringSubmatch_inv getParamsRegexp t)
    as [->|(pre' & s1 & s1' & caps' & Et & Hq & ->)]; [by left|].
  right. apply getParamsRegexp_inv in Hq
    as (a & b & -> & -> & Ha & Hb & Hoa & Hob).
  exists a, b. repeat (split; [done|]). reflexivity.
Qed.

(** What [setUa] can do: nothing, or set ua to a text that is not empty and
    has no line feed. *)
Lemma setUa_cases (l : httpLogger) (h : string) :
  setUa l h userAgentRegexp = l ∨
  ∃ v, v ≠ EmptyString ∧ oneline v = true ∧
    setUa l h userAgentRegexp = set_ua l v.
Proof.
  unfold setUa.
  destruct (FindStringSubmatch_inv userAgentRegexp h)
    as [->|(pre & s0 & s' & caps & -> & Hm & ->)]; [by left|].
  right. apply userAgentRegexp_inv in Hm as (w & v & -> & -> & Hv & Hov & _).
  by exists v.
Qed.

End oneline_facts.

Module lines_facts.

Import gostr gostr_facts regexp regexp_facts pattern_facts regexp_inv
       oneline_facts httplog.

Lemma pieces_not_nil (s : string) : bufio.pieces s ≠ [].
Proof.
  induction s as [|c s IH]; [done|]. cbn [bufio.pieces].
  destruct (bufio.pieces s); [done|]. by destruct (Ascii.eqb c LF).
Qed.

Lemma pieces_oneline (s : string) :
  Forall (λ p, has LF p = false) (bufio.pieces s).
Proof.
  induction s as [|c s IH]; [by repeat constructor|].
  cbn [bufio.pieces]. destruct (bufio.pieces s) as [|p ps]; [done|].
  apply Forall_cons in IH as [Hp Hps].
  destruct (Ascii.eqb c LF) eqn:E.
  - by repeat constructor.
  - constructor; [|done]. by rewrite has_cons, E.
Qed.

Lemma dropCR_has (c : ascii) (s : string) :
  has c s = false → has c (bufio.dropCR s) = false.
Proof.
  induction s as [|d s IH]; [done|]. rewrite has_cons.
  intros [Hd Hs]%orb_false_elim. cbn [bufio.dropCR].
  destruct s as [|e s].
  - destruct (Ascii.eqb d CR); [done|]. by rewrite has_cons, Hd.
  - by rewrite has_cons, Hd, (IH Hs).
Qed.

Lemma tokens_oneline (ps : list string) :
  Forall (λ p, has LF p = false) ps →
  Forall (λ p, has LF p = false) (bufio.tokens ps).
Proof.
  induction ps as [|p ps IH]; [done|]. intros [Hp Hps]%Forall_cons.
  cbn [bufio.tokens]. destruct ps as [|q ps].
  - destruct (String.length p =? 0); [done|].
    destruct (bufio.fits p); [|done]. constructor; [|done]. by apply dropCR_has.
  - destruct (bufio.fits p); [|done]. constructor; [by apply dropCR_has|].
    by apply IH.
Qed.

(** No line the scanner delivers has a line feed in it. *)
Lemma ScanLines_oneline (text : string) :
  Forall (λ line, has LF line = false) (bufio.ScanLines text).
Proof. apply tokens_oneline, pieces_oneline. Qed.

Import shape.

Lemma noLF_has (s : string) : noLF s = true ↔ has LF s = false.
Proof. unfold noLF. apply negb_true_iff. Qed.

Lemma cleanFields_iff (l : httpLogger) :
  cleanFields l = true ↔
  noLF (ip l) = true ∧ noLF (method l) = true ∧ noLF (path l) = true ∧
  noLF (ua l) = true ∧ noLF (params l) = true.
Proof. unfold cleanFields. rewrite !andb_true_iff. tauto. Qed.

Lemma oneline_noLF (s : string) : oneline s = true → noLF s = true.
Proof. intros H. apply noLF_has. by apply oneline_has. Qed.

Lemma setPath_clean (l : httpLogger) (line : string) :
  cleanFields l = true →
  cleanFields (setPath l line pathRegexp getParamsRegexp) = true.
Proof.
  intros Hl.
  destruct (setPath_cases l line)
    as [->|(m & t & _ & _ & Hom & Hot & [->|(a & b & _ & _ & Hoa & Hob & ->)])];
    [done|..].
  all: apply cleanFields_iff in Hl as (Hi & Hm & Hp & Hu & Hj);
    apply cleanFields_iff; cbn; repeat split; auto using oneline_noLF.
  apply noLF_has, toJSON_oneline. by apply oneline_has.
Qed.

Lemma setUa_clean (l : httpLogger) (h : string) :
  cleanFields l = true → cleanFields (setUa l h userAgentRegexp) = true.
Proof.
  intros Hl. destruct (setUa_cases l h) as [->|(v & _ & Hov & ->)]; [done|].
  apply cleanFields_iff in Hl as (Hi & Hm & Hp & Hu & Hj).
  apply cleanFields_iff; cbn; repeat split; auto using oneline_noLF.
Qed.

Lemma scan_clean (lines : list string) (l : httpLogger) (line : string) :
  Forall (λ x, has LF x = false) lines →
  cleanFields l = true → noLF line = true →
  cleanFields (fst (foldl scanStep (l, line) lines)) = true ∧
  noLF (snd (foldl scanStep (l, line) lines)) = true.
Proof.
  revert l line. induction lines as [|x lines IH]; intros l line Hall Hl Hline;
    [done|].
  apply Forall_cons in Hall as [Hx Hall]. cbn [foldl]. apply IH; [done|..].
  - unfold scanStep. cbn [fst]. by apply setUa_clean, setPath_clean.
  - unfold scanStep. cbn [snd]. by apply noLF_has.
Qed.

Lemma SplitHostPort_host_has (c : ascii) (hostport host port : string) :
  net.SplitHostPort hostport = Some (host, port) →
  has c hostport = false → has c host = false.
Proof.
  unfold net.SplitHostPort.
  destruct (LastIndexByte hostport ":") as [i|]; [|done].
  destruct (first_is "[" hostport).
  - destruct (IndexByte hostport "]") as [e|]; [|done].
    destruct (e + 1 =? String.length hostport); [done|].
    destruct (e + 1 =? i); [|done].
    destruct (has "[" _); [done|]. destruct (has "]" _); [done|].
    intros [= <- _] H. unfold slice. by apply has_upto, has_from.
  - destruct (has ":" _); [done|].
    destruct (has "[" _); [done|]. destruct (has "]" _); [done|].
    intros [= <- _] H. by apply has_upto.
Qed.

Lemma getIP_clean (r : http.Request) :
  noLF (http.Header_Get (http.Header r) "X-Forwarded-For") = true →
  noLF (http.RemoteAddr r) = true →
  noLF (getIP r) = true.
Proof.
  intros Hf Ha. unfold getIP. destruct (0 <? String.length _); [done|].
  destruct (net.SplitHostPort (http.RemoteAddr r)) as [[host port]|] eqn:E;
    [|done].
  apply noLF_has. apply (SplitHostPort_host_has _ _ _ _ E). by apply noLF_has.
Qed.

End lines_facts.

Module clean_facts.

Import gostr gostr_facts regexp httplog httplog_facts shape oneline_facts
       lines_facts gofunc middleware.

Lemma string_of_uint_noLF (d : Decimal.uint) :
  has LF (NilEmpty.string_of_uint d) = false.
Proof. induction d; [done|..]; cbn [NilEmpty.string_of_uint]; by rewrite has_cons, IHd. Qed.

Lemma Itoa_noLF (i : Z) : noLF (strconv.Itoa i) = true.
Proof.
  apply noLF_has. unfold strconv.Itoa.
  destruct (Z.to_int i) as [d|d]; cbn [NilEmpty.string_of_int].
  - apply string_of_uint_noLF.
  - by rewrite has_cons, string_of_uint_noLF.
Qed.

Lemma extras_noLF (order : list (string * fmt.value)) :
  cleanExtras order = true → has LF (cat (map extraEntry order)) = false.
Proof.
  induction order as [|[k v] order IH]; [done|].
  cbn [cleanExtras forallb fst snd]. rewrite !andb_true_iff.
  intros [[Hk Hv] Ho]. cbn [map cat]. unfold extraEntry at 1. cbn [fst snd].
  apply noLF_has in Hk, Hv.
  rewrite !has_app, Hk, Hv, (IH Ho). done.
Qed.

(** After [SetRequestInfo] the five fields have no line feed in them, when
    they had none before and the forwarding header and the peer address of
    the request have none. *)
Lemma SetRequestInfo_clean (l : httpLogger) (r : http.Request) :
  cleanFields l = true →
  noLF (http.Header_Get (http.Header r) "X-Forwarded-For") = true →
  noLF (http.RemoteAddr r) = true →
  cleanFields (SetRequestInfo l r) = true.
Proof.
  intros Hl Hf Ha. unfold SetRequestInfo. cbn [reqRaw set_reqRaw].
  assert (cleanFields (set_reqRaw (set_ip l (getIP r)) (reqDump r)) = true) as H0.
  { apply cleanFields_iff in Hl as (Hi & Hm & Hp & Hu & Hj).
    apply cleanFields_iff; cbn; repeat split; try done. by apply getIP_clean. }
  destruct (scan_clean (bufio.ScanLines (reqDump r)) _ EmptyString
              (ScanLines_oneline _) H0 eq_refl) as [H1 H2].
  destruct (String.length _ =? 0); [|done].
  apply cleanFields_iff in H1 as (Hi & Hm & Hp & Hu & Hj).
  apply cleanFields_iff; cbn; repeat split; done.
Qed.

(** The entry built has no line feed when the clock reading, the fields and
    the extras have none. *)
Lemma buildLogEntry_noLF (l : httpLogger) (now : string)
    (order : list (string * fmt.value)) :
  cleanFields l = true → noLF now = true → cleanExtras order = true →
  noLF (buildLogEntry l now order) = true.
Proof.
  intros Hl Hn Ho.
  apply cleanFields_iff in Hl as (Hi & Hm & Hp & Hu & Hj).
  apply noLF_has in Hi, Hm, Hp, Hu, Hj, Hn.
  pose proof (Itoa_noLF (status l)) as Hs%noLF_has.
  apply noLF_has. rewrite buildLogEntry_eq.
  rewrite !has_app, Hi, Hm, Hp, Hu, Hj, Hn, Hs, (extras_noLF _ Ho). done.
Qed.

End clean_facts.

(** ** [setPath] and [setUa] on one line *)

Module LineSpec.

Import gostr gostr_facts regexp regexp_facts pattern_facts regexp_inv
       oneline_facts httplog shape samples.

Lemma userAgentRegexp_header (w : ascii) (v : string) :
  class_has PerlSpace w = true → v ≠ EmptyString → oneline v = true →
  matchAt userAgentRegexp ("User-Agent:" +:+ String w v)
    = Some (EmptyString, [(1, v)]).
Proof.
  intros Hw Hv Hov. unfold matchAt, userAgentRegexp.
  rewrite run_cat, (run_text "User-Agent:"), run_cat, run_one, Hw.
  by apply run_group_plus_end.
Qed.

(** X10: A header line [User-Agent:], one white space character, then a value
    that is not empty: [setUa] sets ua to the value, to the end of the line,
    and nothing else. *)
Theorem setUa_header_line (l : httpLogger) (w : ascii) (v : string) :
  class_has PerlSpace w = true → v ≠ EmptyString → has LF v = false →
  setUa l ("User-Agent:" +:+ String w v) userAgentRegexp = set_ua l v.
Proof.
  intros Hw Hv Hov%oneline_has. unfold setUa.
  by rewrite (FindStringSubmatch_at userAgentRegexp _ EmptyString [(1, v)])
    by (by apply userAgentRegexp_header).
Qed.

Lemma setUa_header_line_witness :
  setUa (New 1) "User-Agent: curl/8.0" userAgentRegexp
    = set_ua (New 1) "curl/8.0".
Proof.
  apply (setUa_header_line (New 1) " " "curl/8.0");
    [reflexivity | discriminate | reflexivity].
Defined.

Lemma userAgentRegexp_nowhere (h : string) :
  somewhere (λ s, HasPrefix s "User-Agent:") h = false →
  FindStringSubmatch userAgentRegexp h = [].
Proof.
  assert (∀ s, HasPrefix s "User-Agent:" = false →
               matchAt userAgentRegexp s = None) as Hnone.
  { intros s Hs. unfold matchAt, userAgentRegexp. rewrite run_cat.
    by apply run_text_none. }
  induction h as [|c h IH]; intros H.
  - cbn [somewhere] in H. apply orb_false_elim in H as [H _].
    cbn [FindStringSubmatch]. by rewrite (Hnone _ H).
  - apply somewhere_tail in H as [H1 H2].
    cbn [FindStringSubmatch]. rewrite (Hnone _ H1). by apply IH.
Qed.

(** X11: A line in which [User-Agent:] does not occur, in these very letters,
    leaves the logger as it is. *)
Theorem setUa_other_line (l : httpLogger) (h : string) :
  somewhere (λ s, HasPrefix s "User-Agent:") h = false →
  setUa l h userAgentRegexp = l.
Proof.
  intros H. unfold setUa. by rewrite (userAgentRegexp_nowhere _ H).
Qed.

Lemma setUa_other_line_witness :
  setUa sample "Host: example.com" userAgentRegexp = sample.
Proof. apply (setUa_other_line sample "Host: example.com"). reflexivity. Defined.

(** X8: A line that has no white space character followed by [HTTP] in it is
    no request line to [setPath]: the logger stays as it is. *)
Theorem setPath_other_line (l : httpLogger) (line : string) :
  somewhere spaceHTTP line = false →
  setPath l line pathRegexp getParamsRegexp = l.
Proof.
  intros H. unfold setPath. by rewrite (pathRegexp_nowhere _ H).
Qed.

Lemma setPath_other_line_witness :
  setPath sample "Host: example.com" pathRegexp getParamsRegexp = sample.
Proof. apply (setPath_other_line sample "Host: example.com"). reflexivity. Defined.

Lemma getParamsRegexp_nowhere (t : string) :
  has "?" t = false → FindStringSubmatch getParamsRegexp t = [].
Proof.
  assert (∀ s, has "?" s = false → matchAt getParamsRegexp s = None) as Hnone.
  { intros s Hs. unfold matchAt, getParamsRegexp. apply run_group_plus_dead.
    destruct s as [|c s]; [done|].
    rewrite has_cons in Hs. apply orb_false_elim in Hs as [_ Hs].
    apply (dead_without (Lit "?")
             (λ s' caps', run _ s' ((1, _) :: caps') _)).
    - intros y Hy. rewrite run_cat. by apply run_one_first.
    - unfold has in Hs. by apply negb_false_iff in Hs. }
  induction t as [|c t IH]; intros H.
  - cbn [FindStringSubmatch]. by rewrite (Hnone _ H).
  - cbn [FindStringSubmatch]. rewrite (Hnone _ H).
    rewrite has_cons in H. apply orb_false_elim in H as [_ H]. by apply IH.
Qed.

(** The request line [m t HTTP...] whose target [t] has no question mark:
    [setPath] sets method to [m] and path to [t], and nothing else. *)
Lemma setPath_plain (l : httpLogger) (m t ver : string) :
  m ≠ EmptyString → t ≠ EmptyString →
  has LF m = false → spaceless t = true → spaceless ver = true →
  has "?" t = false →
  setPath l (m +:+ " " +:+ t +:+ " HTTP" +:+ ver) pathRegexp getParamsRegexp
    = set_path (set_method l m) t.
Proof.
  intros Hm Ht Hom%oneline_has Hst Hsv Hq. unfold setPath.
  rewrite (FindStringSubmatch_at pathRegexp _ ver [(2, t); (1, m)])
    by (by apply pathRegexp_request_line).
  cbn [length Nat.ltb Nat.leb NumSubexp pathRegexp seq map group Nat.eqb
       lookup_total list_lookup_total Nat.add].
  by rewrite (getParamsRegexp_nowhere _ Hq).
Qed.

Lemma has_app_r (c : ascii) (s t : string) :
  has c (s +:+ t) = false → has c t = false.
Proof. rewrite has_app. by intros [_ ?]%orb_false_elim. Qed.

(** X9: Whatever [setPath] does comes from a place of the line that reads as a
    request line: either it leaves the logger alone, or the line holds
    [m w1 t w2 HTTP] for two white space characters [w1], [w2] and two texts
    [m], [t] that are not empty and have no line feed, method is set to
    [m], and either path is set to [t] and params is left alone, or [t]
    holds [a?b] with [a], [b] not empty, path is set to [a] and params to
    the transform of [b]. *)
Theorem setPath_sound (l : httpLogger) (line : string) :
  setPath l line pathRegexp getParamsRegexp = l ∨
  ∃ pre m w1 t w2 post,
    line = pre +:+ m +:+ String w1 (t +:+ String w2 ("HTTP" +:+ post)) ∧
    class_has PerlSpace w1 = true ∧ class_has PerlSpace w2 = true ∧
    m ≠ EmptyString ∧ t ≠ EmptyString ∧ has LF m = false ∧ has LF t = false ∧
    (setPath l line pathRegexp getParamsRegexp = set_path (set_method l m) t ∨
     ∃ pre' a b post',
       t = pre' +:+ a +:+ String "?" (b +:+ post') ∧
       a ≠ EmptyString ∧ b ≠ EmptyString ∧
       setPath l line pathRegexp getParamsRegexp
         = set_params (set_path (set_path (set_method l m) t) a) (toJSON b)).
Proof.
  unfold setPath.
  destruct (FindStringSubmatch_inv pathRegexp line)
    as [->|(pre & s0 & s' & caps & -> & Hm & ->)]; [by left|].
  right. apply pathRegexp_inv in Hm
    as (m & t & w1 & w2 & -> & -> & Hm & Ht & Hom%oneline_has & Hot%oneline_has
        & Hw1 & Hw2).
  exists pre, m, w1, t, w2, s'. repeat (split; [done|]).
  cbn [length Nat.ltb Nat.leb NumSubexp pathRegexp seq map group Nat.eqb
       lookup_total list_lookup_total Nat.add].
  destruct (FindStringSubmatch_inv getParamsRegexp t)
    as [->|(pre' & s1 & s1' & caps' & Et & Hq & ->)]; [by left|].
  right. apply getParamsRegexp_inv in Hq
    as (a & b & -> & -> & Ha & Hb & _ & _).
  exists pre', a, b, s1'. repeat (split; [done|]). reflexivity.
Qed.


End LineSpec.

(** ** [SetRequestInfo] on the lines of a dump *)

Module RequestSpec.

Import gostr gostr_facts regexp regexp_facts pattern_facts regexp_inv
       oneline_facts lines_facts extract_facts httplog shape LineSpec samples.

Lemma setPath_ua (l : httpLogger) (line : string) (p q : Regexp) :
  ip (setPath l line p q) = ip l ∧ ua (setPath l line p q) = ua l ∧
  reqRaw (setPath l line p q) = reqRaw l.
Proof.
  unfold setPath. destruct (0 <? length (FindStringSubmatch p line)); [|done].
  by destruct (0 <? length _).
Qed.

Lemma setUa_rest (l : httpLogger) (h : string) (r : Regexp) :
  ip (setUa l h r) = ip l ∧ method (setUa l h r) = method l ∧
  path (setUa l h r) = path l ∧ params (setUa l h r) = params l ∧
  reqRaw (setUa l h r) = reqRaw l.
Proof. unfold setUa. by destruct (0 <? length _). Qed.

Lemma foldl_scanStep_cons (l : httpLogger) (line x : string)
    (lines : list string) :
  foldl scanStep (l, line) (x :: lines)
    = foldl scanStep
        (setUa (setPath l x pathRegexp getParamsRegexp) x userAgentRegexp, x)
        lines.
Proof. reflexivity. Qed.

(** The loop leaves ip and reqRaw alone. *)
Lemma scan_ip (lines : list string) (l : httpLogger) (line : string) :
  ip (fst (foldl scanStep (l, line) lines)) = ip l ∧
  reqRaw (fst (foldl scanStep (l, line) lines)) = reqRaw l.
Proof.
  revert l line. induction lines as [|x lines IH]; intros l line; [done|].
  rewrite foldl_scanStep_cons. destruct (IH (setUa (setPath l x pathRegexp
    getParamsRegexp) x userAgentRegexp) x) as [-> ->].
  destruct (setUa_rest (setPath l x pathRegexp getParamsRegexp) x
              userAgentRegexp) as (-> & _ & _ & _ & ->).
  by destruct (setPath_ua l x pathRegexp getParamsRegexp) as (-> & _ & ->).
Qed.

(** The variable [line] ends as the last line scanned. *)
Lemma scan_line (lines : list string) (l : httpLogger) (line : string) :
  snd (foldl scanStep (l, line) lines) = default line (last lines).
Proof.
  revert l line. induction lines as [|x lines IH]; intros l line; [done|].
  rewrite foldl_scanStep_cons, IH, last_cons. by destruct (last lines).
Qed.



(** X1: [SetRequestInfo] always takes ip from the request and keeps the dump in
    reqRaw (the empty text when there is none); it never touches the
    writer, the status or the extras. *)
Theorem SetRequestInfo_frame (l : httpLogger) (r : http.Request) :
  ip (SetRequestInfo l r) = getIP r ∧
  reqRaw (SetRequestInfo l r) = reqDump r ∧
  w (SetRequestInfo l r) = w l ∧ status (SetRequestInfo l r) = status l ∧
  extras (SetRequestInfo l r) = extras l.
Proof.
  destruct (SetRequestInfo_kept l r) as (Hw & Hs & He).
  repeat split; try done.
  all: rewrite ExtractSpec.SetRequestInfo_lines; cbv zeta;
    destruct (scan_ip (bufio.ScanLines (reqDump r))
                (set_reqRaw (set_ip l (getIP r)) (reqDump r)) EmptyString)
      as [Hi Hr];
    by destruct (String.length _ =? 0).
Qed.



(** X2: A request without dump, or with an empty one, changes ip and reqRaw and
    nothing else: method, path, ua and params stay as they were. *)
Theorem SetRequestInfo_without_dump (l : httpLogger) (r : http.Request) :
  reqDump r = EmptyString →
  SetRequestInfo l r = set_reqRaw (set_ip l (getIP r)) EmptyString.
Proof.
  intros Hd. rewrite ExtractSpec.SetRequestInfo_lines, Hd. cbv zeta.
  cbn [bufio.ScanLines bufio.pieces bufio.tokens foldl fst snd String.length
       Nat.eqb params set_reqRaw set_ip].
  destruct l as [w0 ip0 m0 p0 u0 j0 s0 raw0 ex0]. cbn.
  by destruct j0.
Qed.

Lemma SetRequestInfo_without_dump_witness :
  SetRequestInfo sample no_dump
    = set_reqRaw (set_ip sample "10.0.0.1") EmptyString.
Proof. apply (SetRequestInfo_without_dump sample no_dump). reflexivity. Defined.

(** X5: A dump that starts with the request line [m t HTTP...], the target [t]
    without white space and without question mark, and has no other line
    that is read as a request line: method is [m] and path is [t]. *)
Theorem SetRequestInfo_plain_request (l : httpLogger) (r : http.Request)
    (m t ver : string) (rest : list string) :
  bufio.ScanLines (reqDump r) = (m +:+ " " +:+ t +:+ " HTTP" +:+ ver) :: rest →
  Forall (λ line, FindStringSubmatch pathRegexp line = []) rest →
  m ≠ EmptyString → t ≠ EmptyString →
  has LF m = false → spaceless t = true → spaceless ver = true →
  has "?" t = false →
  method (SetRequestInfo l r) = m ∧ path (SetRequestInfo l r) = t.
Proof.
  intros Hlines Hrest Hm Ht Hom Hst Hsv Hq.
  rewrite ExtractSpec.SetRequestInfo_lines, Hlines. cbv zeta.
  rewrite foldl_scanStep_cons, setPath_plain by done.
  match goal with |- context [foldl scanStep (?l1, ?x) rest] =>
    destruct (ExtractSpec.scan_nomatch rest l1 x Hrest) as (Hme & Hpa & _);
    destruct (String.length (params (fst (foldl scanStep (l1, x) rest))) =? 0)
  end.
  all: cbn [method path set_params]; rewrite Hme, Hpa.
  all: match goal with |- context [setUa ?l0 ?h ?re] =>
    by destruct (setUa_rest l0 h re) as (_ & -> & -> & _) end.
Qed.

Lemma SetRequestInfo_plain_request_witness :
  method (SetRequestInfo sample post_form) = "POST" ∧
  path (SetRequestInfo sample post_form) = "/signup".
Proof.
  apply (SetRequestInfo_plain_request sample post_form
           "POST" "/signup" "/1.1"
           ["Host: server.url:8080";
            "Content-Type: application/x-www-form-urlencoded";
            "Content-Length: 16"; EmptyString; "name=alice&age=7"]);
    [vm_compute; reflexivity | vm_compute; repeat constructor
    | discriminate | discriminate | reflexivity..].
Defined.



Lemma pieces_app (a b : string) :
  has LF a = false →
  ∃ p ps, bufio.pieces b = p :: ps ∧ bufio.pieces (a +:+ b) = (a +:+ p) :: ps.
Proof.
  intros Ha. induction a as [|c a IH].
  - destruct (bufio.pieces b) as [|p ps] eqn:E; [by destruct (pieces_not_nil b)|].
    by exists p, ps.
  - rewrite has_cons in Ha. apply orb_false_elim in Ha as [Hc Ha].
    destruct (IH Ha) as (p & ps & Hb & Hab). exists p, ps. split; [done|].
    rewrite str_app_cons. cbn [bufio.pieces]. by rewrite Hab, Hc.
Qed.

Lemma fits_app (a p : string) : bufio.fits a = false → bufio.fits (a +:+ p) = false.
Proof.
  unfold bufio.fits. rewrite str_length_app, !Z.ltb_ge. lia.
Qed.

Lemma fits_length (a : string) : bufio.fits a = false → (String.length a =? 0) = false.
Proof.
  unfold bufio.fits, bufio.MaxScanTokenSize. rewrite Z.ltb_ge, Nat.eqb_neq. lia.
Qed.

(** A first line too long for the scanner's buffer ends the scan before a
    single line is delivered. *)
Lemma ScanLines_too_long (first rest : string) :
  has LF first = false → bufio.fits first = false →
  bufio.ScanLines (first +:+ rest) = [].
Proof.
  intros Hf Hfit. unfold bufio.ScanLines.
  destruct (pieces_app first rest Hf) as (p & ps & _ & ->).
  cbn [bufio.tokens]. rewrite (fits_app _ p Hfit), (fits_length _ (fits_app _ p Hfit)).
  by destruct ps.
Qed.

(** X3: A dump whose first line is too long for the scanner's buffer (65536
    bytes or more before the first line feed) is not read at all: ip and
    reqRaw are set, method, path, ua and params stay as they were. *)
Theorem SetRequestInfo_first_line_too_long (l : httpLogger) (r : http.Request)
    (first rest : string) :
  reqDump r = first +:+ rest →
  has LF first = false → (65536 ≤ Z.of_nat (String.length first))%Z →
  SetRequestInfo l r = set_reqRaw (set_ip l (getIP r)) (first +:+ rest).
Proof.
  intros Hd Hf Hlen. rewrite ExtractSpec.SetRequestInfo_lines, Hd. cbv zeta.
  rewrite ScanLines_too_long; [|done|by apply Z.ltb_ge].
  cbn [foldl fst snd params set_reqRaw set_ip].
  destruct l as [w0 ip0 m0 p0 u0 j0 s0 raw0 ex0]. cbn.
  by destruct j0.
Qed.

Lemma SetRequestInfo_first_line_too_long_witness :
  SetRequestInfo sample long_request
    = set_reqRaw (set_ip sample "10.0.0.1") (reqDump long_request).
Proof.
  apply (SetRequestInfo_first_line_too_long sample long_request
           long_target
           (" HTTP/1.1" +:+ crlf +:+ "Host: example.com" +:+ crlf +:+ crlf));
    [reflexivity | vm_compute; reflexivity | vm_compute; discriminate].
Defined.

End RequestSpec.

(** ** [SetRequestInfo] on a dump as it goes over the wire *)

Module WireSpec.

Import gostr gostr_facts regexp regexp_facts pattern_facts regexp_inv
       oneline_facts net_facts lines_facts extract_facts httplog shape LineSpec
       RequestSpec samples.

Lemma pieces_noLF (s : string) : has LF s = false → bufio.pieces s = [s].
Proof.
  intros H. destruct (pieces_app s EmptyString H) as (p & ps & Hp & Hs).
  injection Hp as <- <-. by rewrite !str_app_nil_r in Hs.
Qed.

Lemma pieces_line (a rest : string) :
  has LF a = false →
  bufio.pieces (a +:+ String LF rest) = a :: bufio.pieces rest.
Proof.
  intros H. destruct (pieces_app a (String LF rest) H) as (p & ps & Hp & ->).
  cbn [bufio.pieces] in Hp.
  destruct (bufio.pieces rest) as [|q qs] eqn:E; [by destruct (pieces_not_nil rest)|].
  replace (Ascii.eqb LF LF) with true in Hp by done.
  injection Hp as <- <-. by rewrite str_app_nil_r.
Qed.

Lemma dropCR_app_CR (s : string) : bufio.dropCR (s +:+ String CR EmptyString) = s.
Proof.
  induction s as [|c s IH]; [done|]. rewrite str_app_cons. cbn [bufio.dropCR].
  rewrite IH. destruct s; done.
Qed.

(** The lines of a dump: header lines that end in carriage return and line
    feed, then a body without line feed.  The scanner delivers the header
    lines as they are, and after them the body when it is not empty, as long
    as each fits its buffer. *)
Lemma ScanLines_of_dump (lines : list string) (body : string) :
  Forall (λ l, has LF l = false ∧
               bufio.fits (l +:+ String CR EmptyString) = true) lines →
  has LF body = false → bufio.fits body = true →
  bufio.ScanLines
    (cat (map (λ l, l +:+ String CR (String LF EmptyString)) lines) +:+ body)
    = lines ++ (if String.length body =? 0 then [] else [bufio.dropCR body]).
Proof.
  intros Hlines Hb Hfb. unfold bufio.ScanLines.
  induction lines as [|l lines IH].
  - cbn [map cat]. rewrite str_app_nil_l, (pieces_noLF _ Hb).
    cbn [bufio.tokens app]. by rewrite Hfb.
  - apply Forall_cons in Hlines as [[Hl Hfl] Hlines]. cbn [map cat].
    set (tail := cat (map (λ l, l +:+ String CR (String LF EmptyString)) lines)
                 +:+ body) in *.
    replace (((l +:+ String CR (String LF EmptyString)) +:+
              cat (map (λ l, l +:+ String CR (String LF EmptyString)) lines))
             +:+ body)
      with ((l +:+ String CR EmptyString) +:+ String LF tail)
      by (unfold tail; by rewrite !str_app_assoc).
    rewrite pieces_line by (by rewrite has_app, Hl).
    specialize (IH Hlines).
    destruct (bufio.pieces tail) as [|q qs] eqn:E; [by destruct (pieces_not_nil tail)|].
    cbn [bufio.tokens]. rewrite Hfl, dropCR_app_CR.
    cbn [app]. by f_equal.
Qed.

Lemma dropCR_id (s : string) : has CR s = false → bufio.dropCR s = s.
Proof.
  induction s as [|c s IH]; [done|]. rewrite has_cons.
  intros [Hc Hs]%orb_false_elim. cbn [bufio.dropCR]. rewrite (IH Hs).
  destruct s; [|done]. by rewrite Hc.
Qed.

(** X4: The dump of a request as it goes over the wire: the request line
    [m t HTTP...] with a target [t] that has no white space and no question
    mark, header lines, an empty line, and a body of one line, every line
    ended by carriage return and line feed but the body.  When neither a
    header line nor the body has a white space character followed by
    [HTTP], method is [m], path is [t], and params is the body if params
    was empty before the call and what it was if not. *)
Theorem SetRequestInfo_of_wire (l : httpLogger) (r : http.Request)
    (m t ver : string) (headers : list string) (body : string) :
  reqDump r
    = cat (map (λ x, x +:+ String CR (String LF EmptyString))
               ((m +:+ " " +:+ t +:+ " HTTP" +:+ ver)
                  :: headers ++ [EmptyString]))
      +:+ body →
  m ≠ EmptyString → t ≠ EmptyString → has LF m = false →
  spaceless t = true → has "?" t = false → spaceless ver = true →
  bufio.fits ((m +:+ " " +:+ t +:+ " HTTP" +:+ ver) +:+ String CR EmptyString)
    = true →
  Forall (λ h, has LF h = false ∧ somewhere spaceHTTP h = false ∧
               bufio.fits (h +:+ String CR EmptyString) = true) headers →
  has LF body = false → has CR body = false →
  somewhere spaceHTTP body = false → bufio.fits body = true →
  method (SetRequestInfo l r) = m ∧ path (SetRequestInfo l r) = t ∧
  params (SetRequestInfo l r)
    = if String.length (params l) =? 0 then body else params l.
Proof.
  intros Hd Hm Ht Hom Hst Hq Hsv Hfit Hh Hb Hcr Hsb Hfb.
  assert (has LF ver = false) as Hov.
  { apply oneline_has. by apply spaceless_oneline. }
  assert (has LF t = false) as Hot.
  { apply oneline_has. by apply spaceless_oneline. }
  rewrite ExtractSpec.SetRequestInfo_lines, Hd.
  rewrite ScanLines_of_dump; [|repeat constructor|done|done].
  - cbv zeta. rewrite <- app_comm_cons, foldl_scanStep_cons.
    rewrite setPath_plain by done.
    set (rest := (headers ++ [EmptyString]) ++
                 (if String.length body =? 0 then [] else [bufio.dropCR body])).
    assert (Forall (λ x, FindStringSubmatch pathRegexp x = []) rest) as Hrest.
    { unfold rest. rewrite !Forall_app. repeat split.
      - eapply Forall_impl; [exact Hh|]. intros h (_ & H & _).
        by apply pathRegexp_nowhere.
      - by repeat constructor.
      - destruct (String.length body =? 0); [constructor|].
        repeat constructor. rewrite dropCR_id by done.
        by apply pathRegexp_nowhere. }
    assert (default EmptyString (last rest) = body) as Hlast.
    { unfold rest. destruct (String.length body =? 0) eqn:E.
      - rewrite app_nil_r, last_snoc. apply Nat.eqb_eq in E.
        by destruct body.
      - rewrite last_snoc. cbn. by apply dropCR_id. }
    match goal with |- context [foldl scanStep (?l1, ?x) rest] =>
      destruct (ExtractSpec.scan_nomatch rest l1 x Hrest) as (Hme & Hpa & Hj);
      pose proof (scan_line rest l1 x) as Hsnd;
      match l1 with setUa ?l0 _ _ =>
        destruct (setUa_rest l0 x userAgentRegexp) as (_ & Hm1 & Hp1 & Hj1 & _)
      end;
      rewrite Hm1 in Hme; rewrite Hp1 in Hpa; rewrite Hj1 in Hj;
      cbn [method path params set_path set_method set_reqRaw set_ip] in Hme, Hpa, Hj;
      rewrite Hj
    end.
    assert (∃ y, last rest = Some y) as [y Hy].
    { unfold rest. destruct (String.length body =? 0).
      - rewrite app_nil_r, last_snoc. by eexists.
      - rewrite last_snoc. by eexists. }
    rewrite Hy in Hsnd, Hlast. cbn [default from_option id] in Hsnd, Hlast. subst y.
    destruct (String.length (params l) =? 0) eqn:E.
    + cbn [method path params set_params]. by rewrite Hme, Hpa, Hsnd.
    + by rewrite Hme, Hpa, Hj.
  - by rewrite !has_app, Hom, Hot, Hov.
  - done.
  - apply Forall_app. split.
    + eapply Forall_impl; [exact Hh|]. by intros h (H1 & _ & H2).
    + by repeat constructor.
Qed.

Lemma SetRequestInfo_of_wire_witness :
  method (SetRequestInfo (New 1) post_form) = "POST" ∧
  path (SetRequestInfo (New 1) post_form) = "/signup" ∧
  params (SetRequestInfo (New 1) post_form) = "name=alice&age=7".
Proof.
  apply (SetRequestInfo_of_wire (New 1) post_form
           "POST" "/signup" "/1.1"
           ["Host: server.url:8080";
            "Content-Type: application/x-www-form-urlencoded";
            "Content-Length: 16"] "name=alice&age=7");
    [vm_compute; reflexivity | discriminate | discriminate
    | reflexivity | reflexivity | reflexivity | reflexivity | reflexivity
    | repeat constructor | reflexivity..].
Defined.

End WireSpec.

(** ** The shape of the ip *)

Module IPShape.

Import gostr gostr_facts net_facts httplog.

Lemma LastIndexByte_from (c : ascii) (s : string) (i : nat) :
  LastIndexByte s c = Some i →
  s = upto i s +:+ String c (from (i + 1) s).
Proof.
  revert i. induction s as [|d s IH]; intros i; [done|]. cbn [LastIndexByte].
  destruct (LastIndexByte s c) as [j|].
  - intros [= <-]. cbn [upto from Nat.add]. rewrite str_app_cons.
    f_equal. by apply IH.
  - destruct (Ascii.eqb d c) eqn:E; [|done]. intros [= <-].
    apply Ascii.eqb_eq in E as ->. by cbn.
Qed.

Lemma LastIndexByte_at (c : ascii) (s : string) (i : nat) :
  LastIndexByte s c = Some i → from i s = String c (from (i + 1) s).
Proof.
  revert i. induction s as [|d s IH]; intros i; [done|]. cbn [LastIndexByte].
  destruct (LastIndexByte s c) as [j|].
  - intros [= <-]. cbn [from Nat.add]. by apply IH.
  - destruct (Ascii.eqb d c) eqn:E; [|done]. intros [= <-].
    apply Ascii.eqb_eq in E as ->. by cbn.
Qed.

Lemma IndexByte_from (c : ascii) (s : string) (e : nat) :
  IndexByte s c = Some e →
  s = upto e s +:+ String c (from (e + 1) s).
Proof.
  revert e. induction s as [|d s IH]; intros e; [done|]. cbn [IndexByte].
  destruct (Ascii.eqb d c) eqn:E.
  - intros [= <-]. apply Ascii.eqb_eq in E as ->. by cbn.
  - destruct (IndexByte s c) as [j|]; [|done]. intros [= <-].
    cbn [upto from Nat.add]. rewrite str_app_cons. f_equal. by apply IH.
Qed.

(** What [SplitHostPort] splits is [host:port] or [[host]:port]. *)
Lemma SplitHostPort_inv (hostport host port : string) :
  net.SplitHostPort hostport = Some (host, port) →
  hostport = host +:+ ":" +:+ port ∨
  hostport = "[" +:+ host +:+ "]:" +:+ port.
Proof.
  unfold net.SplitHostPort.
  destruct (LastIndexByte hostport ":") as [i|] eqn:Ei; [|done].
  destruct (first_is "[" hostport) eqn:Ef.
  - destruct (IndexByte hostport "]") as [e|] eqn:Ee; [|done].
    destruct (e + 1 =? String.length hostport); [done|].
    destruct (e + 1 =? i) eqn:Eei; [|done]. apply Nat.eqb_eq in Eei as <-.
    destruct (has "[" _); [done|]. destruct (has "]" _); [done|].
    intros [= <- <-]. right.
    destruct hostport as [|d hp]; [done|]. cbn [first_is] in Ef.
    apply Ascii.eqb_eq in Ef as ->.
    cbn [IndexByte] in Ee. replace (Ascii.eqb "[" "]") with false in Ee by done.
    destruct (IndexByte hp "]") as [e'|] eqn:Ee'; [|done].
    injection Ee as <-.
    apply LastIndexByte_at in Ei. cbn [from Nat.add] in Ei.
    apply IndexByte_from in Ee'.
    unfold slice. cbn [from Nat.sub Nat.add].
    replace (e' - 0) with e' by lia.
    rewrite Ei in Ee'. rewrite Ee' at 1. reflexivity.
  - destruct (has ":" _); [done|].
    destruct (has "[" _); [done|]. destruct (has "]" _); [done|].
    intros [= <- <-]. left. by apply LastIndexByte_from.
Qed.

(** X13: The ip of a request is the first value of its forwarding header, or
    its peer address, or a part [ip] of a peer address that reads [ip:port]
    or [[ip]:port]: nothing else. *)
Theorem getIP_shape (r : http.Request) :
  (getIP r = http.Header_Get (http.Header r) "X-Forwarded-For" ∧
   getIP r ≠ EmptyString) ∨
  getIP r = http.RemoteAddr r ∨
  ∃ port,
    http.RemoteAddr r = getIP r +:+ ":" +:+ port ∨
    http.RemoteAddr r = "[" +:+ getIP r +:+ "]:" +:+ port.
Proof.
  unfold getIP.
  destruct (0 <? String.length _) eqn:E.
  - left. split; [done|]. intros H. rewrite H in E. done.
  - right. destruct (net.SplitHostPort (http.RemoteAddr r)) as [[host port]|] eqn:Es.
    + right. exists port. by apply SplitHostPort_inv.
    + by left.
Qed.

End IPShape.

(** ** [toJSON] on a query string *)

Module JSONSpec.

Import gostr gostr_facts httplog shape samples.

Lemma Replace_app (oldnew : list (ascii * string)) (s t : string) :
  strings.Replace oldnew (s +:+ t)
    = strings.Replace oldnew s +:+ strings.Replace oldnew t.
Proof.
  induction s as [|c s IH]; [done|]. rewrite str_app_cons.
  cbn [strings.Replace]. rewrite IH.
  destruct (strings.lookup_byte c oldnew); [by rewrite str_app_assoc|done].
Qed.

(** A text without [=] and [&] goes through the replacer as it is. *)
Lemma Replace_plain (s : string) :
  has "=" s = false → has "&" s = false → strings.Replace jsonPairs s = s.
Proof.
  induction s as [|c s IH]; [done|]. rewrite !has_cons.
  intros [He Hs]%orb_false_elim [Ha Hs']%orb_false_elim.
  cbn [strings.Replace jsonPairs strings.lookup_byte].
  by rewrite He, Ha, IH.
Qed.

Lemma Replace_pair (k v : string) :
  has "=" k = false → has "&" k = false →
  has "=" v = false → has "&" v = false →
  strings.Replace jsonPairs (k +:+ "=" +:+ v)
    = k +:+ String dquote (": " +:+ String dquote v).
Proof.
  intros Hk1 Hk2 Hv1 Hv2.
  change (k +:+ "=" +:+ v) with (k +:+ String "=" v).
  rewrite Replace_app, (Replace_plain k) by done.
  cbn [strings.Replace jsonPairs strings.lookup_byte].
  replace (Ascii.eqb "=" "=") with true by done.
  rewrite (Replace_plain v) by done. reflexivity.
Qed.

Lemma Join_one (s sep : string) : Join [s] sep = s.
Proof. reflexivity. Qed.

Lemma Join_cons2 (s t : string) (ss : list string) (sep : string) :
  Join (s :: t :: ss) sep = s +:+ sep +:+ Join (t :: ss) sep.
Proof. reflexivity. Qed.

(** X12: [toJSON] on a well formed query: pairs [key=value] joined by [&], the
    keys and values without [=] and [&], become the JSON object of the
    pairs, each key and each value between double quotes. *)
Theorem toJSON_of_pairs (kv : string * string) (kvs : list (string * string)) :
  Forall (λ p, has "=" (fst p) = false ∧ has "&" (fst p) = false ∧
               has "=" (snd p) = false ∧ has "&" (snd p) = false) (kv :: kvs) →
  toJSON (Join (map (λ p, fst p +:+ "=" +:+ snd p) (kv :: kvs)) "&")
    = "{" +:+ Join (map (λ p, String dquote (fst p) +:+ String dquote ": "
                              +:+ String dquote (snd p) +:+ String dquote EmptyString)
                        (kv :: kvs)) ", "
      +:+ "}".
Proof.
  intros Hall. unfold toJSON.
  assert (String dquote (strings.Replace jsonPairs
            (Join (map (λ p, fst p +:+ "=" +:+ snd p) (kv :: kvs)) "&"))
          +:+ String dquote EmptyString
          = Join (map (λ p, String dquote (fst p) +:+ String dquote ": "
                            +:+ String dquote (snd p) +:+ String dquote EmptyString)
                      (kv :: kvs)) ", ") as H.
  { revert kv Hall. induction kvs as [|kv' kvs IH]; intros [k v] Hall.
    - apply Forall_cons in Hall as [(H1 & H2 & H3 & H4) _].
      cbn [map fst snd]. rewrite !Join_one, Replace_pair by done.
      by repeat (rewrite str_app_cons || rewrite str_app_nil_l
                 || rewrite str_app_assoc).
    - apply Forall_cons in Hall as [(H1 & H2 & H3 & H4) Hall].
      specialize (IH kv' Hall). cbn [map fst snd] in *.
      rewrite !Join_cons2, <- IH.
      change ("&" +:+ ?x) with (String "&" x).
      rewrite Replace_app, Replace_pair by done.
      cbn [strings.Replace jsonPairs strings.lookup_byte].
      replace (Ascii.eqb "&" "=") with false by done.
      replace (Ascii.eqb "&" "&") with true by done.
      by repeat (rewrite str_app_cons || rewrite str_app_nil_l
                 || rewrite str_app_assoc). }
  rewrite <- H.
  by repeat (rewrite str_app_cons || rewrite str_app_nil_l
             || rewrite str_app_assoc).
Qed.

Lemma toJSON_of_pairs_witness :
  toJSON "name=alice&age=7"
    = "{" +:+ quoted "name" +:+ ": " +:+ quoted "alice" +:+ ", "
      +:+ quoted "age" +:+ ": " +:+ quoted "7" +:+ "}".
Proof.
  apply (toJSON_of_pairs ("name", "alice") [("age", "7")]).
  repeat constructor.
Defined.

End JSONSpec.

(** ** One request, one line *)

Module OneLineSpec.

Import gostr gostr_facts httplog httplog_facts shape lines_facts clean_facts
       gofunc middleware samples.

(** X14: A logger that serves one request after the other keeps ip, method,
    path, ua and params free of line feeds, when they were so at the start
    and no request has a line feed in its forwarding header or in its peer
    address: nothing a request line, a header or a body holds can put a
    line feed into a field. *)
Theorem requests_keep_fields_clean (l : httpLogger) (rs : list http.Request) :
  cleanFields l = true →
  Forall (λ r, noLF (http.Header_Get (http.Header r) "X-Forwarded-For") = true ∧
               noLF (http.RemoteAddr r) = true) rs →
  cleanFields (foldl SetRequestInfo l rs) = true.
Proof.
  revert l. induction rs as [|r rs IH]; intros l Hl Hrs; [done|].
  apply Forall_cons in Hrs as [[Hf Ha] Hrs]. cbn [foldl].
  apply IH; [|done]. by apply SetRequestInfo_clean.
Qed.

Lemma requests_keep_fields_clean_witness :
  cleanFields (foldl SetRequestInfo (New 1) [get_query; post_form]) = true.
Proof.
  apply (requests_keep_fields_clean (New 1) [get_query; post_form]);
    [reflexivity | repeat constructor].
Defined.

(** X15: The entry [Log] writes has one line feed, its last byte, when the clock
    reading, the fields and the extras have none. *)
Theorem Log_entry_is_one_line (l : httpLogger) (now : string)
    (order : list (string * fmt.value)) (tr : trace) :
  cleanFields l = true → noLF now = true → cleanExtras order = true →
  ∃ body,
    snd (Log l now order tr) = tr ++ [(w l, body +:+ String LF EmptyString)] ∧
    noLF body = true.
Proof.
  intros Hl Hn Ho. exists (buildLogEntry l now order). split; [done|].
  by apply buildLogEntry_noLF.
Qed.

Lemma Log_entry_is_one_line_witness :
  ∃ body,
    snd (Log sample "2017-07-08T17:08:12UTC" meta_first [(3, "earlier")])
      = [(3, "earlier")] ++ [(w sample, body +:+ String LF EmptyString)] ∧
    noLF body = true.
Proof.
  apply (Log_entry_is_one_line sample "2017-07-08T17:08:12UTC"
           meta_first [(3, "earlier")]); reflexivity.
Defined.

(** X18: One request, one line: when the handler returns, the middleware adds
    one entry to the writer, after the entries that were there, and the
    entry has one line feed, its last byte, whatever the request line, the
    headers and the body of the request hold. *)
Theorem ServeHTTP_logs_one_line (h : loggingHandler) (r : http.Request)
    (now : string) (order : list (string * fmt.value)) (l : httpLogger)
    (tr : trace) :
  snd (next h r) = Returns →
  cleanFields l = true → noLF now = true → cleanExtras order = true →
  noLF (http.Header_Get (http.Header r) "X-Forwarded-For") = true →
  noLF (http.RemoteAddr r) = true →
  ∃ body,
    sink (fst (ServeHTTP h r now order (enter l tr)))
      = tr ++ [(w l, body +:+ String LF EmptyString)] ∧
    noLF body = true.
Proof.
  intros Hret Hl Hn Ho Hf Ha.
  rewrite MiddlewareSpec.ServeHTTP_returns by done. cbv zeta. cbn [fst sink].
  eexists. split; [reflexivity|].
  apply buildLogEntry_noLF; [|done..].
  by apply (SetRequestInfo_clean l r).
Qed.

Lemma ServeHTTP_logs_one_line_witness :
  ∃ body,
    sink (fst (ServeHTTP (WithLogging ok_handler) test_server_get
                 "2017-07-08T17:08:12UTC" [] (enter (New 1) [])))
      = [] ++ [(w (New 1), body +:+ String LF EmptyString)] ∧
    noLF body = true.
Proof.
  apply (ServeHTTP_logs_one_line (WithLogging ok_handler)
           test_server_get "2017-07-08T17:08:12UTC" [] (New 1) []);
    reflexivity.
Defined.

(** X19: A handler that panics: the panic goes on through [ServeHTTP], nothing
    is written to the logger's writer, the status of the logger stays what
    it was, the fields of the request are set, and the server's response
    writer has received the calls the handler made before it panicked. *)
Theorem panic_leaves_no_entry (h : loggingHandler) (r : http.Request)
    (now : string) (order : list (string * fmt.value)) (l : httpLogger)
    (tr : trace) :
  snd (next h r) = Panics →
  snd (ServeHTTP h r now order (enter l tr)) = Panics ∧
  sink (fst (ServeHTTP h r now order (enter l tr))) = tr ∧
  logger (fst (ServeHTTP h r now order (enter l tr))) = SetRequestInfo l r ∧
  status (logger (fst (ServeHTTP h r now order (enter l tr)))) = status l ∧
  response (fst (ServeHTTP h r now order (enter l tr))) = fst (next h r).
Proof.
  intros Hp. rewrite MiddlewareSpec.ServeHTTP_panics by done. cbn.
  repeat split. by destruct (extract_facts.SetRequestInfo_kept l r) as (_ & -> & _).
Qed.

Lemma panic_leaves_no_entry_witness :
  snd (ServeHTTP (WithLogging panicking_handler) test_server_get
         "2017-07-08T17:08:12UTC" [] (enter sample [(3, "earlier")])) = Panics ∧
  sink (fst (ServeHTTP (WithLogging panicking_handler) test_server_get
               "2017-07-08T17:08:12UTC" [] (enter sample [(3, "earlier")])))
    = [(3, "earlier")].
Proof.
  destruct (panic_leaves_no_entry (WithLogging panicking_handler)
              test_server_get "2017-07-08T17:08:12UTC" [] sample
              [(3, "earlier")] eq_refl) as (H1 & H2 & _).
  exact (conj H1 H2).
Defined.

End OneLineSpec.

(** ** [Add] and the extras in the entry *)

Module ExtrasSpec.

Import gostr gostr_facts httplog httplog_facts shape samples.

(** X17: [Add] on a key that is there replaces the value; on two different keys
    the order of the two calls does not matter; and after two [Add] on one
    key, a range over the extras sees the key once, with the later value. *)
Theorem Add_composes (l : httpLogger) (k k' : string) (v1 v2 v' : fmt.value) :
  Add (Add l k v1) k v2 = Add l k v2 ∧
  (k ≠ k' → Add (Add l k v1) k' v' = Add (Add l k' v') k v1) ∧
  ∀ order, rangeOrder (extras (Add (Add l k v1) k v2)) order →
    (k, v2) ∈ order ∧ ∀ v, (k, v) ∈ order → v = v2.
Proof.
  unfold Add, set_extras. cbn. split; [|split].
  - by rewrite insert_insert_eq.
  - intros Hne. f_equal. by apply insert_insert_ne.
  - intros order [_ Hin]%rangeOrder_entries. split.
    + apply Hin. rewrite insert_insert_eq. apply lookup_insert_eq.
    + intros v Hv%Hin. rewrite insert_insert_eq, lookup_insert_eq in Hv. congruence.
Qed.

Lemma Add_composes_witness :
  Add (Add sample "uid" (fmt.Int 1%Z)) "uid" (fmt.Int 2%Z)
    = Add sample "uid" (fmt.Int 2%Z) ∧
  Add (Add sample "uid" (fmt.Int 1%Z)) "tag" (fmt.Str "x")
    = Add (Add sample "tag" (fmt.Str "x")) "uid" (fmt.Int 1%Z).
Proof.
  destruct (Add_composes sample "uid" "tag" (fmt.Int 1%Z)
              (fmt.Int 2%Z) (fmt.Str "x")) as (H1 & H2 & _).
  refine (conj H1 (H2 _)). by intros [=].
Defined.

(** X16: Nothing is escaped: a logger with the text [ k=v] appended to its
    params and a logger with the extra [k], [v] added write the same
    entry, though they are different loggers. *)
Theorem params_pass_for_extras (l : httpLogger) (now k : string)
    (v : fmt.value) (order : list (string * fmt.value)) :
  extras l !! k = None → rangeOrder (extras l) order →
  rangeOrder (extras (Add l k v)) ((k, v) :: order) ∧
  buildLogEntry (Add l k v) now ((k, v) :: order)
    = buildLogEntry
        (set_params l (params l +:+ " " +:+ k +:+ "=" +:+ fmt.Sprintf_v v))
        now order ∧
  extras (Add l k v) ≠ extras (set_params l
            (params l +:+ " " +:+ k +:+ "=" +:+ fmt.Sprintf_v v)).
Proof.
  intros Hk Ho. split; [|split].
  - unfold rangeOrder in *. cbn. rewrite map_to_list_insert by done.
    by constructor.
  - rewrite !buildLogEntry_eq. cbn [map cat ip method path ua status params
      Add set_extras set_params]. unfold extraEntry at 1. cbn [fst snd].
    by rewrite !str_app_assoc.
  - cbn. intros H. assert (<[k:=v]> (extras l) !! k = extras l !! k) as E
      by (by rewrite H).
    rewrite lookup_insert_eq, Hk in E. done.
Qed.

Lemma params_pass_for_extras_witness :
  rangeOrder (extras (Add (New 1) "uid" (fmt.Int 7%Z))) [("uid", fmt.Int 7%Z)] ∧
  buildLogEntry (Add (New 1) "uid" (fmt.Int 7%Z)) "2017-07-08T17:08:12UTC"
                [("uid", fmt.Int 7%Z)]
    = buildLogEntry (set_params (New 1) " uid=7") "2017-07-08T17:08:12UTC" [].
Proof.
  destruct (params_pass_for_extras (New 1) "2017-07-08T17:08:12UTC"
              "uid" (fmt.Int 7%Z) []) as (H1 & H2 & _).
  - reflexivity.
  - unfold rangeOrder. vm_compute. reflexivity.
  - exact (conj H1 H2).
Defined.

End ExtrasSpec.

(** ** The tests of the repository, run on the model *)

Module RepoTests.

Import gostr httplog gofunc middleware samples.

(** TestLog and TestSetStatus *)
Example TestLog :
  snd (Log (New 0) "2017-07-08T17:08:12UTC" [] [])
    = [(0, "level=I time=2017-07-08T17:08:12UTC ip= method= path= ua= status=0 params="
             +:+ String LF EmptyString)] ∧
  snd (Log (SetStatus (New 0) 200%Z) "2017-07-08T17:08:12UTC" [] [])
    = [(0, "level=I time=2017-07-08T17:08:12UTC ip= method= path= ua= status=200 params="
             +:+ String LF EmptyString)].
Proof. by vm_compute. Qed.

(** TestSetRequestInfo: a POST with a body, then on the same logger a GET
    with a query string and a forwarding header. *)
Example TestSetRequestInfo :
  let l1 := SetRequestInfo (New 0) test_post in
  let l2 := SetRequestInfo l1 test_get in
  (ip l1 = "192.0.2.1" ∧ method l1 = "POST" ∧
   path l1 = "https://example.com/resources" ∧ ua l1 = "request-ua" ∧
   params l1 = "{" +:+ quoted "foo" +:+ ": " +:+ quoted "bar" +:+ "}") ∧
  (ip l2 = "127.0.0.1" ∧ method l2 = "GET" ∧
   path l2 = "https://example.com/resources" ∧ ua l2 = "request-ua" ∧
   params l2 = "{" +:+ quoted "foo" +:+ ": " +:+ quoted "bar" +:+ "}").
Proof. by vm_compute. Qed.

(** TestLogExtras *)
Example TestLogExtras :
  snd (Log (Add (Add (New 0) "uid" (fmt.Int 1234%Z)) "secret" (fmt.Str "shhh!"))
           "2017-07-08T17:08:12UTC"
           [("uid", fmt.Int 1234%Z); ("secret", fmt.Str "shhh!")] [])
    = [(0, "level=I time=2017-07-08T17:08:12UTC ip= method= path= ua= status=0 params= uid=1234 secret=shhh!"
             +:+ String LF EmptyString)].
Proof. by vm_compute. Qed.

(** TestWithLogging *)
Example TestWithLogging :
  sink (fst (ServeHTTP (WithLogging ok_handler) test_server_get
               "2017-07-08T17:08:12UTC" [] (enter (New 0) [])))
    = [(0, "level=I time=2017-07-08T17:08:12UTC ip=127.0.0.1 method=GET path=/ ua=Go-http-client/1.1 status=200 params={"
             +:+ quoted "foo" +:+ ": " +:+ quoted "bar" +:+ "}"
             +:+ String LF EmptyString)].
Proof. by vm_compute. Qed.

End RepoTests.
